(** * Soil-profile proxies: depth-weighted averages and site kappa

    A shallow embedding of [openquake/srtk/soilprofile/proxies.py]:
    [depth_weighted_average] and [compute_site_kappa].

    The Python functions are written against whatever numbers the arrays
    hold.  The embedding keeps that: the two functions are defined once over
    an interface [Scalar] of the operations the source applies ([+], [-],
    [*], [/], [<], [==] and numpy's [sum]) and are then read in two number
    systems,
    - [exact]: the rationals [Q], for the algebra of the algorithm;
    - [binary64]: IEEE 754 double precision, the dtype of a numpy float
      array, through the kernel's primitive floats. *)

From Stdlib Require Import List Bool Arith Lia.
From Stdlib Require Import QArith Qminmax Lqa Field.
From Stdlib Require Import Floats.
Import ListNotations.

Set Implicit Arguments.

(** ** The numeric interface *)

Declare Scope num_scope.
Delimit Scope num_scope with num.

Class Scalar (A : Type) : Type := {
  zero : A;
  nadd : A -> A -> A;
  nsub : A -> A -> A;
  nmul : A -> A -> A;
  ndiv : A -> A -> A;
  nltb : A -> A -> bool;
  neqb : A -> A -> bool;
  (** [_np.sum] of a one-dimensional array *)
  np_sum : list A -> A
}.

Infix "+" := nadd : num_scope.
Infix "-" := nsub : num_scope.
Infix "*" := nmul : num_scope.
Infix "/" := ndiv : num_scope.
Infix "<?" := nltb : num_scope.
Infix "=?" := neqb : num_scope.

(** ** The two functions of the module *)

Section Proxies.
Context {A : Type} {num : Scalar A}.
Local Open Scope num_scope.

(** The local variables of [depth_weighted_average] when its [for] loop is
    left; [stopped] records whether it was left through [break]. *)
Record averaging : Type := Averaging {
  mean_value : A;
  total_depth : A;
  stopped : bool
}.

(** [for tk, sp in zip(thickness[:-1], soil_prop[:-1])], lines 55-61: the
    list is the zipped one, the last two arguments are the running
    [mean_value] and [total_depth]. *)
Fixpoint layers_loop (layers : list (A * A)) (depth mean total : A)
  : averaging :=
  match layers with
  | [] => Averaging mean total false
  | (tk, sp) :: rest =>
      if (tk + total) <? depth
      then layers_loop rest depth (mean + tk * sp / depth) (total + tk)
      else Averaging (mean + (depth - total) * sp / depth) total true
  end.

(** [a[-1]]: the last element, [None] standing for the [IndexError] on an
    empty array. *)
Fixpoint last_item (a : list A) : option A :=
  match a with
  | [] => None
  | [x] => Some x
  | _ :: rest => last_item rest
  end.

(** The loop as [depth_weighted_average] runs it: over all layers but the
    last ([a[:-1]] is [removelast a], [zip] is [combine]), from
    [mean_value = 0] and [total_depth = 0]. *)
Definition run_layers (thickness soil_prop : list A) (depth : A)
  : averaging :=
  layers_loop (combine (removelast thickness) (removelast soil_prop))
              depth zero zero.

(** The test of line 63, [total_depth == _np.sum(thickness[:-1])]. *)
Definition halfspace_branch (thickness soil_prop : list A) (depth : A)
  : bool :=
  total_depth (run_layers thickness soil_prop depth)
    =? np_sum (removelast thickness).

(** The term line 64 adds for the half-space. *)
Definition halfspace_term (total depth sp_last : A) : A :=
  (depth - total) * sp_last / depth.

Definition depth_weighted_average (thickness soil_prop : list A) (depth : A)
  : option A :=
  let st := run_layers thickness soil_prop depth in
  if halfspace_branch thickness soil_prop depth
  then match last_item soil_prop with
       | Some sp_last =>
           Some (mean_value st + halfspace_term (total_depth st) depth sp_last)
       | None => None
       end
  else Some (mean_value st).

(** numpy's elementwise [s_velocity*s_quality] on one-dimensional arrays:
    arrays of one length are multiplied pointwise, an array of length one
    is broadcast, and any other pair of shapes is a [ValueError]. *)
Definition array_mul (xs ys : list A) : option (list A) :=
  if (length xs =? length ys)%nat
  then Some (map (fun p => fst p * snd p) (combine xs ys))
  else match xs, ys with
       | [x], _ => Some (map (fun y => x * y) ys)
       | _, [y] => Some (map (fun x => x * y) xs)
       | _, _ => None
       end.

(** Lines 91-92, [if not depth: depth = _np.sum(thickness)].  The
    parameter defaults to the empty list, which is falsy ([None] here); a
    number is falsy when it compares equal to zero. *)
Definition effective_depth (thickness : list A) (depth : option A) : A :=
  match depth with
  | None => np_sum thickness
  | Some d => if d =? zero then np_sum thickness else d
  end.

Definition compute_site_kappa
    (thickness s_velocity s_quality : list A) (depth : option A)
  : option A :=
  let depth := effective_depth thickness depth in
  match array_mul s_velocity s_quality with
  | Some vq =>
      let layer_kappa := map (fun x => depth / x) vq in
      depth_weighted_average thickness layer_kappa depth
  | None => None
  end.

(** The kappa vector of line 95 written entry by entry,
    [layer_kappa[i] = depth / (s_velocity[i] * s_quality[i])]. *)
Definition layer_kappa (depth : A) (s_velocity s_quality : list A) : list A :=
  map (fun vq => depth / (fst vq * snd vq)) (combine s_velocity s_quality).

End Proxies.

(** ** Exact arithmetic

    The rationals, with [Qsum] adding an array up from the left.  Division
    in [Q] is total and gives 0 for a zero divisor, which no arithmetic of
    the program does: whatever is stated below about a value computed in
    exact arithmetic is stated for a positive [depth] (and, in the worked
    profile, velocities and quality factors that are not zero), so that no
    such quotient is formed. *)

Definition Qltb (x y : Q) : bool :=
  match x ?= y with
  | Lt => true
  | _ => false
  end.

Definition Qsum (a : list Q) : Q := fold_left Qplus a 0.

#[export] Instance exact : Scalar Q := {|
  zero := 0;
  nadd := Qplus;
  nsub := Qminus;
  nmul := Qmult;
  ndiv := Qdiv;
  nltb := Qltb;
  neqb := Qeq_bool;
  np_sum := Qsum
|}.

(** What a call in exact arithmetic returns, up to equality of fractions. *)
Definition returns (r : option Q) (v : Q) : Prop :=
  match r with
  | Some x => x == v
  | None => False
  end.

(** ** Double precision

    The elements of a numpy array of dtype float64: every operation is the
    IEEE 754 one, rounded to nearest, and a division by zero gives an
    infinity or a NaN (numpy warns and goes on).  numpy adds a short array
    up from left to right and a long one pairwise, in an order that depends
    on its length, so the reduction is a parameter of the instance;
    [sequential_sum] is the left-to-right one. *)

Definition binary64 (reduce : list float -> float) : Scalar float := {|
  zero := 0%float;
  nadd := PrimFloat.add;
  nsub := PrimFloat.sub;
  nmul := PrimFloat.mul;
  ndiv := PrimFloat.div;
  nltb := PrimFloat.ltb;
  neqb := PrimFloat.eqb;
  np_sum := reduce
|}.

Definition sequential_sum (a : list float) : float :=
  fold_left PrimFloat.add a 0%float.

(** The two functions on float64 profiles whose sums numpy takes from left
    to right, that is with fewer than 8 entries to add; for longer ones
    the instance is [binary64 numpy_sum]. *)
Definition depth_weighted_average64 :=
  @depth_weighted_average float (binary64 sequential_sum).

Definition compute_site_kappa64 :=
  @compute_site_kappa float (binary64 sequential_sum).

(** numpy's own order of summation for a contiguous float64 array (the
    [pairwise_sum] routine behind [_np.sum]; numpy is not part of this
    repository).  Fewer than 8 entries are added from left to right.  Up to
    128 entries are added into 8 running sums, entry [i] into sum
    [i mod 8], over the blocks of 8 the array holds; the 8 sums are added
    as [((r0+r1)+(r2+r3))+((r4+r5)+(r6+r7))] and the entries left over are
    added to that one by one.  A longer array is cut near its middle, at a
    multiple of 8, and the sums of the two parts are added.  The result is
    added to the zero the reduction starts from. *)
Fixpoint add_blocks (r a : list float) (blocks : nat) : list float :=
  match blocks with
  | O => r
  | S k =>
      add_blocks (map (fun p => PrimFloat.add (fst p) (snd p))
                      (combine r (firstn 8 a)))
                 (skipn 8 a) k
  end.

Definition add_accumulators (r : list float) : float :=
  match r with
  | [r0; r1; r2; r3; r4; r5; r6; r7] =>
      (((r0 + r1) + (r2 + r3)) + ((r4 + r5) + (r6 + r7)))%float
  | _ => 0%float
  end.

Fixpoint pairwise_sum (fuel : nat) (a : list float) : float :=
  let n := length a in
  if (n <? 8)%nat then sequential_sum a
  else if (n <=? 128)%nat then
    let r := add_blocks (firstn 8 a) (skipn 8 a) (n / 8 - 1) in
    fold_left PrimFloat.add (skipn (n - n mod 8) a) (add_accumulators r)
  else
    match fuel with
    | O => 0%float
    | S fuel' =>
        let n2 := (n / 2 - (n / 2) mod 8)%nat in
        PrimFloat.add (pairwise_sum fuel' (firstn n2 a))
                      (pairwise_sum fuel' (skipn n2 a))
    end.

Definition numpy_sum (a : list float) : float :=
  PrimFloat.add 0%float (pairwise_sum (length a) a).


(** A double that is an infinity or a NaN. *)
Definition not_finite (x : float) : bool :=
  (PrimFloat.is_nan x || PrimFloat.is_infinity x)%bool.

Definition SFnot_finite (s : spec_float) : bool :=
  match s with
  | S754_nan | S754_infinity _ => true
  | _ => false
  end.

(** ** The average as the profile defines it

    The depth-weighted average read off the layering, without the loop:
    layer [i] starts at the bottom of the layers above it, every layer but
    the last ends where the next one starts, the last one (the half-space)
    has no lower end, and a layer weighs in with the length of its overlap
    with the window from the surface down to [depth]. *)

Definition layer_top (thickness : list Q) (i : nat) : Q :=
  Qsum (firstn i thickness).

(** The depth interval of layer [i]: its upper end and, unless it is the
    half-space, its lower end. *)
Definition layer_interval (thickness : list Q) (i : nat) : Q * option Q :=
  if (S i =? length thickness)%nat
  then (layer_top thickness i, None)
  else (layer_top thickness i, Some (layer_top thickness (S i))).

(** Length of the intersection of an interval with [[0, depth]]. *)
Definition overlap (interval : Q * option Q) (depth : Q) : Q :=
  match interval with
  | (lo, Some hi) => Qmax 0 (Qmin hi depth - Qmax lo 0)
  | (lo, None) => Qmax 0 (depth - Qmax lo 0)
  end.

Definition overlap_average (thickness soil_prop : list Q) (depth : Q) : Q :=
  Qsum (map (fun i => overlap (layer_interval thickness i) depth
                      * nth i soil_prop 0 / depth)
            (seq 0 (length thickness))).

(** The same weights summed along the zipped finite layers, from a running
    top: the shape the loop has. *)
Fixpoint finite_overlap_sum (top : Q) (layers : list (Q * Q)) (depth : Q) : Q :=
  match layers with
  | [] => 0
  | (tk, sp) :: rest =>
      overlap (top, Some (top + tk)) depth * sp / depth
      + finite_overlap_sum (top + tk) rest depth
  end.

(** Finite layers none of which has a negative thickness. *)
Definition nonneg_layers (layers : list (Q * Q)) : Prop :=
  Forall (fun l => 0 <= fst l) layers.

(** The full contribution [thickness * soil_prop / depth] of every finite
    layer. *)
Definition full_layers_sum (layers : list (Q * Q)) (depth : Q) : Q :=
  Qsum (map (fun l => fst l * snd l / depth) layers).

(** ** Comparing results in exact arithmetic *)

(** Two calls that both fault or both return, with equal values. *)
Definition same_result (r1 r2 : option Q) : Prop :=
  match r1, r2 with
  | Some a, Some b => a == b
  | None, None => True
  | _, _ => False
  end.

(** A result multiplied by a factor; a fault stays a fault. *)
Definition scale_result (c : Q) (r : option Q) : option Q :=
  option_map (Qmult c) r.

(** The sum of two results; a fault in either is a fault. *)
Definition add_results (r1 r2 : option Q) : option Q :=
  match r1, r2 with
  | Some a, Some b => Some (a + b)
  | _, _ => None
  end.

(** A value between two bounds. *)
Definition within (lo hi : Q) (x : Q) : Prop := lo <= x /\ x <= hi.

(** numpy's [c1*sp1 + c2*sp2] on two arrays of one length. *)
Definition linear_combination (c1 : Q) (sp1 : list Q) (c2 : Q) (sp2 : list Q)
  : list Q :=
  map (fun p => c1 * fst p + c2 * snd p) (combine sp1 sp2).

(** The attenuation accumulated over the window from the surface down to
    [depth]: every layer adds the length of its overlap with the window
    divided by its velocity and its quality factor. *)
Definition kappa_integral
    (thickness s_velocity s_quality : list Q) (depth : Q) : Q :=
  Qsum (map (fun i => overlap (layer_interval thickness i) depth
                      / (nth i s_velocity 0 * nth i s_quality 0))
            (seq 0 (length thickness))).

(** The whole column: every layer adds its thickness divided by its
    velocity and its quality factor. *)
Definition attenuation_sum (thickness s_velocity s_quality : list Q) : Q :=
  Qsum (map (fun i => nth i thickness 0
                      / (nth i s_velocity 0 * nth i s_quality 0))
            (seq 0 (length thickness))).

(** An array without a zero entry. *)
Definition nonzero_entries (a : list Q) : Prop :=
  Forall (fun x => ~ x == 0) a.

Ltac exact_arith :=
  cbn [nadd nsub nmul ndiv nltb neqb zero np_sum exact] in *.

(** ** Facts that hold in every arithmetic *)

Section ProxiesFacts.
Context {A : Type} {num : Scalar A}.
Local Open Scope num_scope.

Lemma array_mul_same_length (xs ys : list A) :
  length xs = length ys ->
  array_mul xs ys = Some (map (fun p => fst p * snd p) (combine xs ys)).
Proof.
  intros E. unfold array_mul. rewrite E, Nat.eqb_refl. reflexivity.
Qed.

Lemma effective_depth_falsy (thickness : list A) (d : A) :
  (d =? zero) = true -> effective_depth thickness (Some d) = np_sum thickness.
Proof. intros E. simpl. rewrite E. reflexivity. Qed.

Lemma effective_depth_truthy (thickness : list A) (d : A) :
  (d =? zero) = false -> effective_depth thickness (Some d) = d.
Proof. intros E. simpl. rewrite E. reflexivity. Qed.

Lemma effective_depth_of_sum (thickness : list A) :
  effective_depth thickness (Some (np_sum thickness)) = np_sum thickness.
Proof. simpl. destruct (np_sum thickness =? zero); reflexivity. Qed.

(** [compute_site_kappa] sees its [depth] argument only through
    [effective_depth]. *)
Lemma site_kappa_depth_irrelevant
    (thickness s_velocity s_quality : list A) (d1 d2 : option A) :
  effective_depth thickness d1 = effective_depth thickness d2 ->
  compute_site_kappa thickness s_velocity s_quality d1
  = compute_site_kappa thickness s_velocity s_quality d2.
Proof. intros E. unfold compute_site_kappa. rewrite E. reflexivity. Qed.

Lemma single_layer_unfold (t s depth : A) :
  (zero =? np_sum []) = true ->
  depth_weighted_average [t] [s] depth
  = Some (zero + halfspace_term zero depth s).
Proof.
  intros E. unfold depth_weighted_average, halfspace_branch, run_layers.
  simpl. rewrite E. reflexivity.
Qed.

Lemma layer_kappa_entry (depth : A) (s_velocity s_quality : list A) :
  forall (i : nat) (v q : A),
    nth_error s_velocity i = Some v ->
    nth_error s_quality i = Some q ->
    nth_error (layer_kappa depth s_velocity s_quality) i
    = Some (depth / (v * q)).
Proof.
  unfold layer_kappa.
  revert s_quality.
  induction s_velocity as [|v0 vs IH]; intros [|q0 qs] [|i] v q Hv Hq;
    simpl in *; try discriminate.
  - inversion Hv; inversion Hq; subst. reflexivity.
  - apply IH; assumption.
Qed.

Lemma site_kappa_supplied
    (thickness s_velocity s_quality : list A) (depth : A) :
  length s_velocity = length s_quality ->
  (depth =? zero) = false ->
  compute_site_kappa thickness s_velocity s_quality (Some depth)
  = depth_weighted_average thickness
      (layer_kappa depth s_velocity s_quality) depth.
Proof.
  intros Hlen Hd. unfold compute_site_kappa.
  rewrite (effective_depth_truthy thickness depth Hd).
  rewrite (array_mul_same_length _ _ Hlen).
  unfold layer_kappa. rewrite map_map. reflexivity.
Qed.

End ProxiesFacts.

(** ** Comparisons *)

Lemma Qltb_lt (x y : Q) : Qltb x y = true <-> x < y.
Proof.
  unfold Qltb. rewrite Qlt_alt.
  destruct (x ?= y); split; intros E; try reflexivity; discriminate.
Qed.

Lemma Qltb_ge (x y : Q) : Qltb x y = false <-> y <= x.
Proof.
  rewrite <- Bool.not_true_iff_false, Qltb_lt. split; intros E.
  - apply Qnot_lt_le; assumption.
  - apply Qle_not_lt; assumption.
Qed.

Lemma Qeq_bool_false (x y : Q) : ~ x == y -> Qeq_bool x y = false.
Proof.
  intros N. apply Bool.not_true_iff_false. intros E.
  apply N, Qeq_bool_iff, E.
Qed.

Lemma positive_is_truthy (d : Q) : 0 < d -> Qeq_bool d 0 = false.
Proof. intros H. apply Qeq_bool_false. lra. Qed.

(** In double precision, what the comparisons say through the specification
    of the primitive operations. *)
Lemma positive_is_truthy64 (d : float) :
  PrimFloat.ltb 0 d = true -> PrimFloat.eqb d 0 = false.
Proof.
  rewrite ltb_spec, eqb_spec.
  change (Prim2SF 0) with (S754_zero false).
  unfold SFltb, SFeqb.
  destruct (Prim2SF d) as [s|s| |s m e]; simpl; try discriminate;
    destruct s; simpl; intros E; try discriminate; reflexivity.
Qed.

(** ** Sums of rationals *)

Lemma fold_left_Qplus (a : list Q) :
  forall acc : Q, fold_left Qplus a acc == acc + Qsum a.
Proof.
  unfold Qsum.
  induction a as [|x a IH]; intros acc; simpl.
  - ring.
  - rewrite (IH (acc + x)), (IH (0 + x)). ring.
Qed.

Lemma Qsum_nil : Qsum [] == 0.
Proof. reflexivity. Qed.

Lemma Qsum_cons (x : Q) (a : list Q) : Qsum (x :: a) == x + Qsum a.
Proof.
  unfold Qsum at 1. simpl. rewrite fold_left_Qplus. ring.
Qed.

Lemma Qsum_app (a b : list Q) : Qsum (a ++ b) == Qsum a + Qsum b.
Proof.
  induction a as [|x a IH]; simpl.
  - rewrite Qsum_nil. ring.
  - rewrite !Qsum_cons, IH. ring.
Qed.

Lemma Qsum_nonneg (a : list Q) : Forall (Qle 0) a -> 0 <= Qsum a.
Proof.
  induction 1 as [|x a Hx Ha IH].
  - rewrite Qsum_nil. lra.
  - rewrite Qsum_cons. lra.
Qed.

Lemma Qsum_map_ext {X : Type} (f g : X -> Q) (l : list X) :
  (forall x, In x l -> f x == g x) -> Qsum (map f l) == Qsum (map g l).
Proof.
  induction l as [|x l IH]; intros E; simpl.
  - reflexivity.
  - rewrite !Qsum_cons, IH.
    + rewrite (E x) by (left; reflexivity). reflexivity.
    + intros y Hy. apply E. right. exact Hy.
Qed.

Lemma Qsum_pos (a : list Q) : a <> [] -> Forall (Qlt 0) a -> 0 < Qsum a.
Proof.
  intros Hne H. destruct H as [|x a Hx Ha]; [congruence|].
  rewrite Qsum_cons.
  assert (0 <= Qsum a).
  { apply Qsum_nonneg. eapply Forall_impl; [|exact Ha].
    intros y Hy. apply Qlt_le_weak, Hy. }
  lra.
Qed.

(** ** Arrays without their last element *)

Lemma map_fst_combine {X Y : Type} (a : list X) :
  forall b : list Y, (length a <= length b)%nat -> map fst (combine a b) = a.
Proof.
  induction a as [|x a IH]; intros [|y b] Hlen; simpl in *;
    try reflexivity; try lia.
  f_equal. apply IH. lia.
Qed.

Lemma length_removelast_le {X Y : Type} (a : list X) (b : list Y) :
  (length a <= length b)%nat ->
  (length (removelast a) <= length (removelast b))%nat.
Proof.
  rewrite !removelast_firstn_len, !length_firstn. lia.
Qed.

Lemma Forall_removelast {X : Type} (P : X -> Prop) (a : list X) :
  Forall P a -> Forall P (removelast a).
Proof.
  induction 1 as [|x [|y a] Hx Ha IH]; simpl.
  - constructor.
  - constructor.
  - constructor; assumption.
Qed.

Lemma removelast_nonempty {X : Type} (a : list X) :
  (2 <= length a)%nat -> removelast a <> [].
Proof.
  destruct a as [|x [|y a]]; simpl; intros H; try lia. discriminate.
Qed.

Lemma last_item_nonempty {A : Type} (a : list A) :
  a <> [] -> exists x, last_item a = Some x.
Proof.
  induction a as [|x [|y rest] IH]; intros Hne.
  - congruence.
  - exists x. reflexivity.
  - destruct IH as [z Ez]; [discriminate|].
    exists z. exact Ez.
Qed.

Lemma last_item_app {X : Type} (a : list X) (x : X) :
  last_item (a ++ [x]) = Some x.
Proof.
  induction a as [|y a IH]; [reflexivity|].
  cbn [app last_item]. rewrite IH.
  destruct (a ++ [x]) eqn:E; [|reflexivity].
  destruct a; discriminate.
Qed.

Lemma split_last {X : Type} (a : list X) :
  (1 <= length a)%nat -> exists front x, a = front ++ [x].
Proof.
  intros H. destruct (exists_last (l := a)) as (front & x & E).
  - destruct a; simpl in H; [lia|discriminate].
  - exists front, x. exact E.
Qed.

(** ** Overlap of a layer with the averaging window *)

Lemma overlap_compat (lo lo' hi hi' depth : Q) :
  lo == lo' -> hi == hi' ->
  overlap (lo, Some hi) depth == overlap (lo', Some hi') depth.
Proof.
  intros El Eh. unfold overlap. rewrite El, Eh. reflexivity.
Qed.

(** A layer that lies in the window overlaps it with its whole thickness. *)
Lemma overlap_inside (lo hi depth : Q) :
  0 <= lo -> lo <= hi -> hi <= depth ->
  overlap (lo, Some hi) depth == hi - lo.
Proof.
  intros H0 Hl Hh. unfold overlap.
  rewrite (Q.min_l hi depth Hh), (Q.max_l lo 0 H0).
  apply Q.max_r. lra.
Qed.

(** A layer the cutoff falls in overlaps the window down to the cutoff. *)
Lemma overlap_cut (lo hi depth : Q) :
  0 <= lo -> lo <= depth -> depth <= hi ->
  overlap (lo, Some hi) depth == depth - lo.
Proof.
  intros H0 Hl Hh. unfold overlap.
  rewrite (Q.min_r hi depth Hh), (Q.max_l lo 0 H0).
  apply Q.max_r. lra.
Qed.

(** A layer that starts at or below the cutoff does not overlap the
    window. *)
Lemma overlap_beyond (lo hi depth : Q) :
  0 <= lo -> depth <= lo ->
  overlap (lo, Some hi) depth == 0.
Proof.
  intros H0 Hl. unfold overlap.
  rewrite (Q.max_l lo 0 H0).
  apply Q.max_l.
  pose proof (Q.le_min_r hi depth). lra.
Qed.

Lemma overlap_halfspace_reached (lo depth : Q) :
  0 <= lo -> lo <= depth -> overlap (lo, None) depth == depth - lo.
Proof.
  intros H0 Hl. unfold overlap.
  rewrite (Q.max_l lo 0 H0). apply Q.max_r. lra.
Qed.

Lemma overlap_halfspace_beyond (lo depth : Q) :
  0 <= lo -> depth <= lo -> overlap (lo, None) depth == 0.
Proof.
  intros H0 Hl. unfold overlap.
  rewrite (Q.max_l lo 0 H0). apply Q.max_l. lra.
Qed.

(** ** The finite layers, summed along the profile *)

Lemma nonneg_layers_sum (layers : list (Q * Q)) :
  nonneg_layers layers -> 0 <= Qsum (map fst layers).
Proof.
  intros H. apply Qsum_nonneg.
  induction H; simpl; constructor; assumption.
Qed.

Lemma finite_overlap_sum_beyond (layers : list (Q * Q)) (depth : Q) :
  forall top : Q,
    0 <= top -> depth <= top -> nonneg_layers layers ->
    finite_overlap_sum top layers depth == 0.
Proof.
  induction layers as [|[tk sp] rest IH]; intros top H0 Hd Hnn;
    cbn [finite_overlap_sum].
  - reflexivity.
  - inversion Hnn as [|? ? Htk Hrest]; subst. cbn [fst] in Htk.
    rewrite (overlap_beyond (top + tk) H0 Hd).
    rewrite IH by (assumption || lra).
    unfold Qdiv. ring.
Qed.

Lemma finite_overlap_sum_inside (layers : list (Q * Q)) (depth : Q) :
  forall top : Q,
    0 <= top -> nonneg_layers layers ->
    top + Qsum (map fst layers) <= depth ->
    finite_overlap_sum top layers depth == full_layers_sum layers depth.
Proof.
  unfold full_layers_sum.
  induction layers as [|[tk sp] rest IH]; intros top H0 Hnn Hd;
    cbn [finite_overlap_sum map fst snd] in *.
  - reflexivity.
  - inversion Hnn as [|? ? Htk Hrest]; subst. cbn [fst] in Htk.
    rewrite Qsum_cons in Hd.
    pose proof (nonneg_layers_sum Hrest) as Hsum.
    rewrite Qsum_cons.
    rewrite (@overlap_inside top (top + tk) depth) by lra.
    rewrite IH by (assumption || lra).
    unfold Qdiv. ring.
Qed.

(** ** The loop in exact arithmetic *)

(** What the loop has done when it is left, started above the cutoff at a
    running top: [mean_value] has grown by the overlap-weighted sum of the
    layers; and either it ran through, the layers end above the cutoff and
    [total_depth] is their bottom, or it stopped at the layer holding the
    cutoff, with [total_depth] the top of that layer. *)
Lemma layers_loop_exact (layers : list (Q * Q)) (depth : Q) :
  forall mean top : Q,
    0 <= top -> top < depth -> nonneg_layers layers ->
    let st := layers_loop layers depth mean top in
    let bottom := top + Qsum (map fst layers) in
    mean_value st == mean + finite_overlap_sum top layers depth
    /\ ((stopped st = false /\ bottom < depth /\ total_depth st == bottom)
        \/ (stopped st = true /\ depth <= bottom
            /\ top <= total_depth st /\ total_depth st < depth)).
Proof.
  induction layers as [|[tk sp] rest IH]; intros mean top H0 Htop Hnn;
    cbn [layers_loop finite_overlap_sum map fst]; exact_arith.
  - cbn [mean_value total_depth stopped]. rewrite Qsum_nil. split.
    + ring.
    + left. repeat split; lra.
  - inversion Hnn as [|? ? Htk Hrest]; subst. cbn [fst] in Htk.
    pose proof (nonneg_layers_sum Hrest) as Hsum.
    rewrite Qsum_cons.
    destruct (Qltb (tk + top) depth) eqn:Ecut.
    + apply Qltb_lt in Ecut.
      destruct (IH (mean + tk * sp / depth) (top + tk)) as [Hmean Hend];
        [lra | lra | assumption |].
      split.
      * rewrite Hmean.
        rewrite (@overlap_inside top (top + tk) depth) by lra.
        unfold Qdiv. ring.
      * destruct Hend as [(Hs & Hb & Ht)|(Hs & Hb & Hl & Ht)].
        -- left. repeat split; [assumption | lra | rewrite Ht; ring].
        -- right. repeat split; [assumption | lra | lra | assumption].
    + apply Qltb_ge in Ecut.
      cbn [mean_value total_depth stopped]. split.
      * rewrite (@overlap_cut top (top + tk) depth) by lra.
        rewrite finite_overlap_sum_beyond by (assumption || lra).
        unfold Qdiv. ring.
      * right. repeat split; lra.
Qed.

Lemma nonneg_finite_layers (thickness soil_prop : list Q) :
  Forall (Qle 0) (removelast thickness) ->
  nonneg_layers (combine (removelast thickness) (removelast soil_prop)).
Proof.
  unfold nonneg_layers.
  generalize (removelast thickness) (removelast soil_prop).
  intros a b H. revert b.
  induction H as [|x a Hx Ha IH]; intros [|y b]; simpl;
    constructor; auto.
Qed.

(** The loop of [depth_weighted_average] on a profile. *)
Lemma run_layers_exact (thickness soil_prop : list Q) (depth : Q) :
  (length thickness <= length soil_prop)%nat ->
  Forall (Qle 0) (removelast thickness) ->
  0 < depth ->
  let st := run_layers thickness soil_prop depth in
  let layers := combine (removelast thickness) (removelast soil_prop) in
  let bottom := Qsum (removelast thickness) in
  mean_value st == finite_overlap_sum 0 layers depth
  /\ ((stopped st = false /\ bottom < depth /\ total_depth st == bottom)
      \/ (stopped st = true /\ depth <= bottom /\ total_depth st < depth)).
Proof.
  intros Hlen Hnn Hpos. cbv zeta. unfold run_layers. exact_arith.
  destruct (@layers_loop_exact
              (combine (removelast thickness) (removelast soil_prop))
              depth 0 0) as [Hmean Hend];
    [lra | assumption | apply nonneg_finite_layers, Hnn |].
  rewrite map_fst_combine in Hend by (apply length_removelast_le, Hlen).
  split.
  - rewrite Hmean. ring.
  - destruct Hend as [(Hs & Hb & Ht)|(Hs & Hb & Hl & Ht)].
    + left. repeat split; [assumption | lra | rewrite Ht; ring].
    + right. repeat split; [assumption | lra | assumption].
Qed.

(** ** The loop computes the overlap-weighted average *)

Lemma layer_top_cons (t : Q) (a : list Q) (i : nat) :
  layer_top (t :: a) (S i) == t + layer_top a i.
Proof. unfold layer_top. cbn [firstn]. apply Qsum_cons. Qed.

(** The weights taken by index, top and bottom of layer [i] being sums of
    the thicknesses before it, are the weights summed along the profile. *)
Lemma indexed_overlap_sum (front props : list Q) (depth : Q) :
  forall top : Q,
    length front = length props ->
    Qsum (map (fun i =>
                 overlap (top + layer_top front i,
                          Some (top + layer_top front (S i))) depth
                 * nth i props 0 / depth)
              (seq 0 (length front)))
    == finite_overlap_sum top (combine front props) depth.
Proof.
  revert props.
  induction front as [|t front IH]; intros [|s props] top Hlen;
    simpl in Hlen; try discriminate.
  - reflexivity.
  - cbn [length seq map combine finite_overlap_sum].
    rewrite Qsum_cons, <- seq_shift, map_map.
    rewrite <- (IH props (top + t)) by congruence.
    apply Qplus_comp.
    + cbn [nth].
      rewrite (@overlap_compat (top + layer_top (t :: front) 0) top
                 (top + layer_top (t :: front) 1) (top + t) depth).
      * reflexivity.
      * unfold layer_top. cbn [firstn]. rewrite Qsum_nil. ring.
      * rewrite layer_top_cons. unfold layer_top. cbn [firstn].
        rewrite Qsum_nil. ring.
    + apply Qsum_map_ext. intros i _. cbn [nth].
      rewrite (@overlap_compat
                 (top + layer_top (t :: front) (S i))
                 (top + t + layer_top front i)
                 (top + layer_top (t :: front) (S (S i)))
                 (top + t + layer_top front (S i)) depth).
      * reflexivity.
      * rewrite layer_top_cons. ring.
      * rewrite layer_top_cons. ring.
Qed.

Lemma layer_top_front (front : list Q) (t : Q) (i : nat) :
  (i <= length front)%nat ->
  layer_top (front ++ [t]) i = layer_top front i.
Proof.
  intros Hi. unfold layer_top. rewrite firstn_app.
  replace (i - length front)%nat with 0%nat by lia.
  cbn [firstn]. rewrite app_nil_r. reflexivity.
Qed.

(** The average of the profile, split into its finite layers and its
    half-space. *)
Lemma overlap_average_split (front props : list Q) (t s depth : Q) :
  length front = length props ->
  overlap_average (front ++ [t]) (props ++ [s]) depth
  == finite_overlap_sum 0 (combine front props) depth
     + overlap (Qsum front, None) depth * s / depth.
Proof.
  intros Hlen. unfold overlap_average.
  rewrite length_app. cbn [length]. rewrite Nat.add_1_r, seq_S.
  rewrite map_app, Qsum_app. cbn [map]. rewrite Qsum_cons, Qsum_nil.
  apply Qplus_comp.
  - rewrite <- indexed_overlap_sum by exact Hlen.
    apply Qsum_map_ext. intros i Hi. apply in_seq in Hi.
    unfold layer_interval. rewrite length_app. cbn [length].
    replace (S i =? length front + 1)%nat with false
      by (symmetry; apply Nat.eqb_neq; lia).
    rewrite !layer_top_front by lia.
    rewrite app_nth1 by lia.
    rewrite (@overlap_compat (layer_top front i) (0 + layer_top front i)
               (layer_top front (S i)) (0 + layer_top front (S i)) depth)
      by ring.
    reflexivity.
  - unfold layer_interval. rewrite length_app. cbn [length Nat.add].
    replace (S (length front) =? length front + 1)%nat with true
      by (symmetry; apply Nat.eqb_eq; lia).
    rewrite layer_top_front by lia.
    unfold layer_top. rewrite firstn_all.
    rewrite Hlen, nth_middle. ring.
Qed.

(** ** Division by a zero depth in double precision *)

Lemma SFeqb_refl_finite (s : bool) (m : positive) (e : Z) :
  SFeqb (S754_finite s m e) (S754_finite s m e) = true.
Proof.
  unfold SFeqb, SFcompare.
  rewrite Z.compare_refl, Pos.compare_cont_refl.
  destruct s; reflexivity.
Qed.

Lemma not_finite_spec (x : float) :
  not_finite x = SFnot_finite (Prim2SF x).
Proof.
  unfold not_finite, PrimFloat.is_nan, PrimFloat.is_infinity.
  rewrite !eqb_spec, abs_spec.
  change (Prim2SF infinity) with (S754_infinity false).
  destruct (Prim2SF x) as [s|s| |s m e]; simpl.
  - destruct s; reflexivity.
  - destruct s; reflexivity.
  - reflexivity.
  - rewrite SFeqb_refl_finite. reflexivity.
Qed.

Lemma eqb_zero_spec (d : float) :
  PrimFloat.eqb d 0 = true -> exists s, Prim2SF d = S754_zero s.
Proof.
  rewrite eqb_spec. change (Prim2SF 0) with (S754_zero false).
  unfold SFeqb, SFcompare.
  destruct (Prim2SF d) as [s|s| |s m e]; intros E.
  - exists s. reflexivity.
  - destruct s; discriminate.
  - discriminate.
  - destruct s; discriminate.
Qed.

(** Whatever is divided by a zero, the quotient is an infinity or a NaN. *)
Lemma div_by_zero_not_finite (x d : float) :
  PrimFloat.eqb d 0 = true -> not_finite (x / d) = true.
Proof.
  intros Hd. destruct (eqb_zero_spec Hd) as [s Es].
  rewrite not_finite_spec, div_spec, Es.
  unfold SF64div, SFdiv.
  destruct (Prim2SF x) as [sx|sx| |sx mx ex]; reflexivity.
Qed.

(** Adding an infinity or a NaN to anything gives an infinity or a NaN. *)
Lemma add_not_finite (a b : float) :
  not_finite b = true -> not_finite (a + b) = true.
Proof.
  rewrite !not_finite_spec, add_spec.
  unfold SF64add, SFadd.
  destruct (Prim2SF a) as [sa|sa| |sa ma ea];
    destruct (Prim2SF b) as [sb|sb| |sb mb eb];
    simpl; intros E; try discriminate; try reflexivity;
    destruct sa, sb; reflexivity.
Qed.

Section ZeroDepth.
Variable reduce : list float -> float.
Variable depth : float.
Hypothesis depth_is_zero : PrimFloat.eqb depth 0 = true.

Let loop64 := @layers_loop float (binary64 reduce).

(** Every pass through the loop body adds a quotient by [depth], so once
    the loop has run at least once, or has started from such a value,
    [mean_value] is an infinity or a NaN. *)
Lemma loop_zero_depth_not_finite (layers : list (float * float)) :
  forall mean total : float,
    layers <> [] \/ not_finite mean = true ->
    not_finite (mean_value (loop64 layers depth mean total)) = true.
Proof.
  unfold loop64.
  induction layers as [|[tk sp] rest IH]; intros mean total Hstart.
  - destruct Hstart as [Hne|Hm]; [congruence|exact Hm].
  - simpl.
    destruct (PrimFloat.ltb (tk + total) depth).
    + apply IH. right.
      apply add_not_finite, div_by_zero_not_finite, depth_is_zero.
    + simpl. apply add_not_finite, div_by_zero_not_finite, depth_is_zero.
Qed.

End ZeroDepth.

(** ** numpy's summation on short arrays *)

Lemma pairwise_sum_short (a : list float) (fuel : nat) :
  (length a < 8)%nat -> pairwise_sum fuel a = sequential_sum a.
Proof.
  intros Hshort. apply Nat.ltb_lt in Hshort.
  destruct fuel as [|fuel]; cbn [pairwise_sum]; rewrite Hshort; reflexivity.
Qed.

Lemma numpy_sum_short (a : list float) :
  (length a < 8)%nat -> numpy_sum a = (0 + sequential_sum a)%float.
Proof.
  intros Hshort. unfold numpy_sum.
  rewrite pairwise_sum_short by exact Hshort. reflexivity.
Qed.

(** * The properties of the two functions *)

(** ** The average is the overlap-weighted one *)




(** ** A cutoff at the top of the half-space *)

(** C2, as the code runs it in exact arithmetic.  With positive
    thicknesses above the half-space and [depth] equal to
    [sum(thickness[:-1])], the strict test
    [tk + total_depth < depth] fails at the last finite layer: the loop is
    left by [break] with [total_depth] less than the sum, the half-space
    branch is not taken, and the result is the sum of
    [thickness[i] * soil_prop[i] / depth] over the finite layers. *)
Theorem depth_at_last_interface :
  forall (thickness soil_prop : list Q),
    length thickness = length soil_prop ->
    (2 <= length thickness)%nat ->
    Forall (Qlt 0) (removelast thickness) ->
    let depth := Qsum (removelast thickness) in
    let st := run_layers thickness soil_prop depth in
    stopped st = true
    /\ total_depth st < depth
    /\ halfspace_branch thickness soil_prop depth = false
    /\ returns (depth_weighted_average thickness soil_prop depth)
         (full_layers_sum
            (combine (removelast thickness) (removelast soil_prop)) depth).
Proof.
  intros thickness soil_prop Hlen Htwo Hpos. cbv zeta.
  set (depth := Qsum (removelast thickness)).
  assert (Hdepth : 0 < depth)
    by (apply Qsum_pos; [apply removelast_nonempty, Htwo | exact Hpos]).
  assert (Hnn : Forall (Qle 0) (removelast thickness)).
  { eapply Forall_impl; [|exact Hpos]. intros y Hy. apply Qlt_le_weak, Hy. }
  assert (Hle : (length thickness <= length soil_prop)%nat) by lia.
  destruct (run_layers_exact thickness soil_prop Hle Hnn Hdepth)
    as [Hmean Hend].
  fold depth in Hend.
  destruct Hend as [(_ & Hb & _)|(Hs & _ & Ht)]; [lra|].
  assert (Etest : Qeq_bool
                    (total_depth (run_layers thickness soil_prop depth))
                    depth = false)
    by (apply Qeq_bool_false; lra).
  unfold depth_weighted_average, halfspace_branch. exact_arith.
  fold depth. rewrite Etest.
  repeat split; try assumption.
  unfold returns. rewrite Hmean.
  apply finite_overlap_sum_inside.
  - lra.
  - apply nonneg_finite_layers, Hnn.
  - rewrite map_fst_combine by (apply length_removelast_le, Hle).
    fold depth. lra.
Qed.

Lemma depth_at_last_interface_witness :
  stopped (run_layers [5; 3; 0] [100; 150; 200] (Qsum (removelast [5; 3; 0])))
  = true
  /\ halfspace_branch [5; 3; 0] [100; 150; 200] (Qsum (removelast [5; 3; 0]))
     = false.
Proof.
  destruct (@depth_at_last_interface [5; 3; 0] [100; 150; 200])
    as (Hs & _ & Hb & _).
  - reflexivity.
  - simpl. lia.
  - repeat constructor.
  - split; [exact Hs | exact Hb].
Defined.

(** C2 as stated fails: on the profile [[5, 1]], [[100, 200]], with all
    thicknesses positive, a [depth] of [sum(thickness[:-1]) = 5] leaves the
    loop by [break] at layer 0 ([5 + 0 < 5] is false) with
    [total_depth = 0], and the half-space branch is not taken; in exact
    arithmetic and in double precision. *)
Lemma depth_at_last_interface_not_halfspace :
  length [5; 1] = length [100; 200]
  /\ (2 <= length [5; 1])%nat
  /\ Forall (Qlt 0) [5; 1]
  /\ np_sum (removelast [5; 1]) == 5
  /\ halfspace_branch [5; 1] [100; 200] (np_sum (removelast [5; 1])) = false
  /\ stopped (run_layers [5; 1] [100; 200] (np_sum (removelast [5; 1]))) = true
  /\ total_depth (run_layers [5; 1] [100; 200] (np_sum (removelast [5; 1])))
     == 0
  /\ (@halfspace_branch _ (binary64 sequential_sum) [5; 1] [100; 200]
        (sequential_sum (removelast [5; 1])) = false)%float.
Proof.
  repeat split; try (vm_compute; reflexivity).
  repeat constructor.
Qed.

(** ** Worked profiles *)

(** C3, as the code runs it.  With no [depth] the averaging depth is
    [10 + 0 = 10]; at layer 0 the test [10 + 0 < 10] fails, so the loop adds
    [(10 - 0) * layer_kappa[0] / 10] and breaks with [total_depth = 0]; 0 is
    not [sum(thickness[:-1]) = 10], so the half-space adds nothing.  The
    result is [10/(200*20) = 0.0025], the kappa of layer 0 alone. *)
Theorem site_kappa_two_layer_default :
  effective_depth [10; 0] None == 10
  /\ (let st := run_layers [10; 0] (layer_kappa 10 [200; 300] [20; 30]) 10 in
      stopped st = true /\ total_depth st == 0)
  /\ halfspace_branch [10; 0] (layer_kappa 10 [200; 300] [20; 30]) 10 = false
  /\ returns (compute_site_kappa [10; 0] [200; 300] [20; 30] None)
             (10 * (10 / (200 * 20)) / 10)
  /\ returns (compute_site_kappa [10; 0] [200; 300] [20; 30] None) (25 # 10000)
  /\ (compute_site_kappa64 [10; 0] [200; 300] [20; 30] None
      = Some 0x1.47ae147ae147bp-9)%float.
Proof.
  cbv zeta. repeat split; vm_compute; reflexivity.
Qed.

(** C3 as stated fails: the call does not return [10/(300*30)], neither in
    exact arithmetic nor, by a wide margin, in double precision. *)
Lemma site_kappa_two_layer_not_halfspace :
  ~ returns (compute_site_kappa [10; 0] [200; 300] [20; 30] None)
            (10 / (300 * 30))
  /\ (exists r,
        compute_site_kappa64 [10; 0] [200; 300] [20; 30] None = Some r
        /\ PrimFloat.ltb 0x1p-9 r = true
        /\ PrimFloat.ltb (10 / (300 * 30)) 0x1p-9 = true)%float.
Proof.
  split.
  - vm_compute. discriminate.
  - eexists. repeat split; vm_compute; reflexivity.
Qed.

(** C4.  [depth_weighted_average([5, 0], [100, 200], 10)] is exactly 150:
    layer 0 lies above the cutoff, adds [5*100/10 = 50] and moves
    [total_depth] to 5; the loop ends without [break]; 5 equals
    [sum(thickness[:-1])], so the half-space adds [(10-5)*200/10 = 100].
    The same holds in double precision. *)
Theorem two_layer_profile_at_depth_10 :
  let st := run_layers [5; 0] [100; 200] 10 in
  mean_value st == 50 /\ total_depth st == 5 /\ stopped st = false
  /\ halfspace_branch [5; 0] [100; 200] 10 = true
  /\ halfspace_term (total_depth st) 10 200 == 100
  /\ returns (depth_weighted_average [5; 0] [100; 200] 10) 150
  /\ (depth_weighted_average64 [5; 0] [100; 200] 10 = Some 150)%float.
Proof.
  cbv zeta. repeat split; vm_compute; reflexivity.
Qed.

(** ** A profile that is a half-space only *)

(** C5, as the code runs it.  With one layer the loop has nothing to go
    over, [total_depth] stays 0 and equals the empty sum, and the result is
    [0 + (depth - 0) * soil_prop[-1] / depth].  In exact arithmetic that is
    [soil_prop[-1]] for every positive [depth]; in double precision it is
    that expression with the product and the quotient each rounded. *)
Theorem single_layer_average :
  (forall t s depth : Q,
      0 < depth -> returns (depth_weighted_average [t] [s] depth) s)
  /\ (forall t s depth : float,
        depth_weighted_average64 [t] [s] depth
        = Some (0 + (depth - 0) * s / depth)%float).
Proof.
  split.
  - intros t s depth Hpos.
    rewrite single_layer_unfold by reflexivity.
    unfold returns, halfspace_term. simpl. field. lra.
  - intros t s depth. unfold depth_weighted_average64.
    rewrite single_layer_unfold by reflexivity.
    reflexivity.
Qed.

Lemma single_layer_average_witness :
  returns (depth_weighted_average [0] [200] 30) 200.
Proof.
  apply (proj1 single_layer_average). reflexivity.
Defined.

(** C5 as stated fails in double precision: for the one-layer profile with
    property [0.1] (the double nearest to it) and [depth = 3], the product
    [3 * 0.1] rounds up and its quotient by 3 is the double after [0.1],
    not [soil_prop[-1]]. *)
Lemma single_layer_average_rounds :
  (PrimFloat.ltb 0 3 = true
   /\ depth_weighted_average64 [0] [0x1.999999999999ap-4] 3
      = Some 0x1.999999999999bp-4
   /\ PrimFloat.eqb 0x1.999999999999bp-4 0x1.999999999999ap-4 = false
   /\ depth_weighted_average64 [0] [0x1.999999999999ap-4] 3
      <> Some 0x1.999999999999ap-4)%float.
Proof.
  repeat split; try (vm_compute; reflexivity).
  intros E.
  apply (f_equal (fun r => match r with
                           | Some x => PrimFloat.eqb x 0x1.999999999999ap-4
                           | None => false
                           end)) in E.
  vm_compute in E. discriminate.
Qed.

(** ** The depth argument of [compute_site_kappa] *)

(** C6.  With a positive [depth] supplied and velocities and quality
    factors of one length, [compute_site_kappa] is [depth_weighted_average]
    of the vector whose entry [i] is [depth / (s_velocity[i] * s_quality[i])],
    the one scalar [depth] in every entry, averaged down to that [depth].
    This holds in exact arithmetic and in double precision alike. *)
Theorem site_kappa_is_average_of_layer_kappa :
  (forall (thickness s_velocity s_quality : list Q) (depth : Q),
      length s_velocity = length s_quality ->
      0 < depth ->
      compute_site_kappa thickness s_velocity s_quality (Some depth)
      = depth_weighted_average thickness
          (layer_kappa depth s_velocity s_quality) depth
      /\ forall i v q,
          nth_error s_velocity i = Some v ->
          nth_error s_quality i = Some q ->
          nth_error (layer_kappa depth s_velocity s_quality) i
          = Some (depth / (v * q)))
  /\ (forall (reduce : list float -> float)
             (thickness s_velocity s_quality : list float) (depth : float),
      length s_velocity = length s_quality ->
      PrimFloat.ltb 0 depth = true ->
      @compute_site_kappa _ (binary64 reduce)
        thickness s_velocity s_quality (Some depth)
      = @depth_weighted_average _ (binary64 reduce) thickness
          (@layer_kappa _ (binary64 reduce) depth s_velocity s_quality) depth
      /\ forall i v q,
          nth_error s_velocity i = Some v ->
          nth_error s_quality i = Some q ->
          nth_error (@layer_kappa _ (binary64 reduce)
                       depth s_velocity s_quality) i
          = Some (depth / (v * q))%float).
Proof.
  split.
  - intros thickness s_velocity s_quality depth Hlen Hpos. split.
    + apply site_kappa_supplied; [assumption|].
      apply positive_is_truthy, Hpos.
    + intros i v q Hv Hq.
      exact (layer_kappa_entry (num := exact) depth _ _ i Hv Hq).
  - intros reduce thickness s_velocity s_quality depth Hlen Hpos. split.
    + apply (@site_kappa_supplied _ (binary64 reduce)); [assumption|].
      apply positive_is_truthy64, Hpos.
    + intros i v q Hv Hq.
      exact (layer_kappa_entry (num := binary64 reduce) depth _ _ i Hv Hq).
Qed.

Lemma site_kappa_is_average_of_layer_kappa_witness :
  compute_site_kappa [10; 0] [200; 300] [20; 30] (Some 4)
  = depth_weighted_average [10; 0] (layer_kappa 4 [200; 300] [20; 30]) 4
  /\ (@compute_site_kappa _ (binary64 sequential_sum)
        [10; 0] [200; 300] [20; 30] (Some 4)
      = @depth_weighted_average _ (binary64 sequential_sum) [10; 0]
          (@layer_kappa _ (binary64 sequential_sum) 4 [200; 300] [20; 30])
          4)%float.
Proof.
  split.
  - apply (proj1 site_kappa_is_average_of_layer_kappa);
      reflexivity.
  - apply (proj2 site_kappa_is_average_of_layer_kappa);
      reflexivity.
Defined.

(** C7.  Called without [depth], [compute_site_kappa] averages down to
    [sum(thickness)], the sum of all entries: the call is the one with that
    sum passed as [depth], whatever the arithmetic of the arrays, and the
    entry of the half-space is part of the sum. *)
Theorem site_kappa_default_depth :
  (forall (A : Type) (num : Scalar A)
          (thickness s_velocity s_quality : list A),
      effective_depth thickness None = np_sum thickness
      /\ compute_site_kappa thickness s_velocity s_quality None
         = compute_site_kappa thickness s_velocity s_quality
             (Some (np_sum thickness)))
  /\ (forall (front : list Q) (halfspace : Q),
        effective_depth (front ++ [halfspace]) None
        == Qsum front + halfspace).
Proof.
  split.
  - intros A num thickness s_velocity s_quality. split.
    + reflexivity.
    + apply site_kappa_depth_irrelevant.
      rewrite effective_depth_of_sum. reflexivity.
  - intros front halfspace. cbn [effective_depth]. exact_arith.
    rewrite Qsum_app, Qsum_cons, Qsum_nil. ring.
Qed.

(** ** A zero depth *)

(** C8.  On double-precision arrays of one length, at least 1, a call with
    a [depth] equal to zero raises nothing: every quotient by [depth] is an
    infinity or a NaN, which IEEE arithmetic defines, at least one such
    term is added, and the value returned is an infinity or a NaN.  The
    summation routine is any one that returns zero on the empty array. *)
Theorem zero_depth_returns_not_finite :
  forall (reduce : list float -> float)
         (thickness soil_prop : list float) (depth : float),
    PrimFloat.eqb 0 (reduce []) = true ->
    PrimFloat.eqb depth 0 = true ->
    length thickness = length soil_prop ->
    (1 <= length thickness)%nat ->
    (forall x : float, not_finite (x / depth) = true)
    /\ exists r : float,
        @depth_weighted_average _ (binary64 reduce) thickness soil_prop depth
        = Some r
        /\ not_finite r = true.
Proof.
  intros reduce thickness soil_prop depth Hsum Hzero Hlen Hone.
  split; [intros x; apply div_by_zero_not_finite, Hzero|].
  destruct (@last_item_nonempty _ soil_prop) as [sp_last Elast].
  { destruct soil_prop; simpl in *; [lia|discriminate]. }
  unfold depth_weighted_average, halfspace_branch. rewrite Elast.
  set (st := run_layers thickness soil_prop depth).
  assert (Hmean : forall x, not_finite x = true ->
            not_finite (@nadd _ (binary64 reduce) (mean_value st) x) = true).
  { intros x Hx. apply add_not_finite, Hx. }
  destruct (total_depth st =? np_sum (removelast thickness))%num eqn:Etest.
  - eexists. split; [reflexivity|].
    apply Hmean. unfold halfspace_term.
    apply div_by_zero_not_finite, Hzero.
  - eexists. split; [reflexivity|].
    subst st. unfold run_layers in *.
    destruct thickness as [|t0 [|t1 th]]; [simpl in Hone; lia| |].
    + destruct soil_prop as [|s0 [|s1 sp]]; simpl in Hlen; try discriminate.
      simpl in Etest. rewrite Hsum in Etest. discriminate.
    + destruct soil_prop as [|s0 [|s1 sp]]; simpl in Hlen; try discriminate.
      apply (loop_zero_depth_not_finite reduce Hzero).
      left. simpl. discriminate.
Qed.

Lemma zero_depth_returns_not_finite_witness :
  exists r : float,
    (depth_weighted_average64 [5; 0] [100; 200] 0 = Some r)%float
    /\ not_finite r = true.
Proof.
  apply (@zero_depth_returns_not_finite sequential_sum
           [5; 0]%float [100; 200]%float 0%float);
    reflexivity || (simpl; lia).
Defined.

(** C9.  A [depth] that compares equal to zero is falsy, so the guard of
    line 91 replaces it by [sum(thickness)] before anything is divided: the
    call behaves as the one without [depth].  This holds whatever the
    arithmetic of the arrays. *)
Theorem site_kappa_zero_depth_is_default :
  forall (A : Type) (num : Scalar A)
         (thickness s_velocity s_quality : list A) (depth : A),
    (depth =? zero)%num = true ->
    effective_depth thickness (Some depth) = np_sum thickness
    /\ compute_site_kappa thickness s_velocity s_quality (Some depth)
       = compute_site_kappa thickness s_velocity s_quality None.
Proof.
  intros A num thickness s_velocity s_quality depth Hzero.
  pose proof (effective_depth_falsy thickness depth Hzero) as E.
  split; [exact E|].
  apply site_kappa_depth_irrelevant. rewrite E. reflexivity.
Qed.

Lemma site_kappa_zero_depth_is_default_witness :
  (compute_site_kappa [10; 0] [200; 300] [20; 30] (Some 0)
   = compute_site_kappa [10; 0] [200; 300] [20; 30] None)
  /\ (compute_site_kappa64 [10; 0] [200; 300] [20; 30] (Some 0)
      = compute_site_kappa64 [10; 0] [200; 300] [20; 30] None)%float.
Proof.
  split.
  - apply (site_kappa_zero_depth_is_default exact). reflexivity.
  - apply (site_kappa_zero_depth_is_default (binary64 sequential_sum)).
    reflexivity.
Defined.

(** ** When the half-space contributes *)

(** C10.  In exact arithmetic, for thicknesses that are not negative, a
    positive [depth] and properties for every layer, the test
    [total_depth == sum(thickness[:-1])] after the loop succeeds exactly
    when [depth] is greater than [sum(thickness[:-1])]; and when the loop
    was left by [break], [total_depth] is less than that sum, so that the
    test fails and the half-space adds nothing. *)
Theorem halfspace_branch_iff_depth_below_layers :
  forall (thickness soil_prop : list Q) (depth : Q),
    Forall (Qle 0) thickness ->
    (length thickness <= length soil_prop)%nat ->
    0 < depth ->
    (halfspace_branch thickness soil_prop depth = true
     <-> Qsum (removelast thickness) < depth)
    /\ (stopped (run_layers thickness soil_prop depth) = true ->
        total_depth (run_layers thickness soil_prop depth)
        < Qsum (removelast thickness)
        /\ halfspace_branch thickness soil_prop depth = false
        /\ depth_weighted_average thickness soil_prop depth
           = Some (mean_value (run_layers thickness soil_prop depth))).
Proof.
  intros thickness soil_prop depth Hnn Hlen Hpos.
  destruct (run_layers_exact thickness soil_prop Hlen
              (Forall_removelast Hnn) Hpos) as [_ Hend].
  unfold depth_weighted_average, halfspace_branch. exact_arith.
  destruct Hend as [(Hs & Hb & Ht)|(Hs & Hb & Ht)].
  - split.
    + split; intros _; [exact Hb|]. apply Qeq_bool_iff, Ht.
    + rewrite Hs. discriminate.
  - assert (Etest : Qeq_bool
                      (total_depth (run_layers thickness soil_prop depth))
                      (Qsum (removelast thickness)) = false).
    { apply Qeq_bool_false. lra. }
    split.
    + rewrite Etest. split; [discriminate|]. intros Hlt. lra.
    + intros _. rewrite Etest. repeat split. lra.
Qed.

Lemma halfspace_branch_iff_depth_below_layers_witness :
  (halfspace_branch [5; 3; 0] [100; 150; 200] 8 = true
   <-> Qsum (removelast [5; 3; 0]) < 8)
  /\ (stopped (run_layers [5; 3; 0] [100; 150; 200] 8) = true ->
      total_depth (run_layers [5; 3; 0] [100; 150; 200] 8)
      < Qsum (removelast [5; 3; 0])
      /\ halfspace_branch [5; 3; 0] [100; 150; 200] 8 = false
      /\ depth_weighted_average [5; 3; 0] [100; 150; 200] 8
         = Some (mean_value (run_layers [5; 3; 0] [100; 150; 200] 8))).
Proof.
  apply (@halfspace_branch_iff_depth_below_layers
           [5; 3; 0] [100; 150; 200] 8).
  - repeat constructor; discriminate.
  - simpl. lia.
  - reflexivity.
Defined.

(** * Further properties of the two functions *)

(** ** The thickness given for the half-space *)

Section HalfspaceThickness.
Context {A : Type} {num : Scalar A}.
Local Open Scope num_scope.

(** X2.  The last entry of [thickness], the thickness given for the
    half-space, is never read by [depth_weighted_average], nor by
    [compute_site_kappa] when a [depth] that is not zero is supplied:
    replacing it changes nothing, whatever the arithmetic of the arrays. *)
Theorem halfspace_thickness_is_not_read
    (front : list A) (t t' : A) (soil_prop : list A) (depth : A) :
  depth_weighted_average (front ++ [t]) soil_prop depth
  = depth_weighted_average (front ++ [t']) soil_prop depth
  /\ forall s_velocity s_quality : list A,
      (depth =? zero) = false ->
      compute_site_kappa (front ++ [t]) s_velocity s_quality (Some depth)
      = compute_site_kappa (front ++ [t']) s_velocity s_quality (Some depth).
Proof.
  assert (E : forall sp d,
             depth_weighted_average (front ++ [t]) sp d
             = depth_weighted_average (front ++ [t']) sp d).
  { intros sp d.
    unfold depth_weighted_average, halfspace_branch, run_layers.
    rewrite !removelast_last. reflexivity. }
  split; [apply E|].
  intros s_velocity s_quality Hd. unfold compute_site_kappa.
  rewrite !(effective_depth_truthy _ depth Hd).
  destruct (array_mul s_velocity s_quality); [apply E | reflexivity].
Qed.

End HalfspaceThickness.

Lemma halfspace_thickness_is_not_read_witness :
  compute_site_kappa ([10] ++ [0]) [200; 300] [20; 30] (Some 4)
  = compute_site_kappa ([10] ++ [7]) [200; 300] [20; 30] (Some 4).
Proof.
  apply (@halfspace_thickness_is_not_read Q exact [10] 0 7 [] 4).
  reflexivity.
Defined.

(** ** Closed forms in exact arithmetic *)

(** The result on a profile written as its finite layers and its
    half-space. *)
Lemma average_split_exact (front props : list Q) (t s depth : Q) :
  length front = length props ->
  Forall (Qle 0) front ->
  0 < depth ->
  returns (depth_weighted_average (front ++ [t]) (props ++ [s]) depth)
          (finite_overlap_sum 0 (combine front props) depth
           + overlap (Qsum front, None) depth * s / depth).
Proof.
  intros Hlen Hnn Hpos.
  pose proof (Qsum_nonneg Hnn) as Hbottom.
  destruct (@run_layers_exact (front ++ [t]) (props ++ [s]) depth)
    as [Hmean Hend].
  { rewrite !length_app. cbn [length]. lia. }
  { rewrite removelast_last. exact Hnn. }
  { exact Hpos. }
  unfold depth_weighted_average, halfspace_branch. exact_arith.
  rewrite last_item_app.
  rewrite !removelast_last in *.
  destruct Hend as [(Hs & Hb & Ht)|(Hs & Hb & Ht)].
  - replace (Qeq_bool _ _) with true
      by (symmetry; apply Qeq_bool_iff, Ht).
    unfold returns, halfspace_term. exact_arith.
    rewrite Hmean, overlap_halfspace_reached by lra.
    rewrite Ht. reflexivity.
  - rewrite Qeq_bool_false by lra.
    unfold returns.
    rewrite Hmean, overlap_halfspace_beyond by lra.
    unfold Qdiv. ring.
Qed.

Lemma nonneg_combine (a b : list Q) :
  Forall (Qle 0) a -> nonneg_layers (combine a b).
Proof.
  unfold nonneg_layers. intros H. revert b.
  induction H as [|x a Hx Ha IH]; intros [|y b]; simpl;
    constructor; auto.
Qed.

(** X3.  A cutoff within the first layer: for a profile of two layers or
    more with thicknesses that are not negative and
    [0 < depth <= thickness[0]], the result is [soil_prop[0]]. *)
Theorem cutoff_in_first_layer :
  forall (t0 s0 : Q) (rest_thickness rest_prop : list Q) (depth : Q),
    length rest_thickness = length rest_prop ->
    (1 <= length rest_thickness)%nat ->
    Forall (Qle 0) rest_thickness ->
    0 < depth -> depth <= t0 ->
    returns (depth_weighted_average (t0 :: rest_thickness)
               (s0 :: rest_prop) depth)
            s0.
Proof.
  intros t0 s0 rest_thickness rest_prop depth Hlen Hone Hnn Hpos Hcut.
  destruct (split_last rest_thickness Hone) as (front & t & Eth).
  destruct (split_last rest_prop) as (props & s & Esp); [lia|].
  subst rest_thickness rest_prop.
  rewrite !length_app in Hlen. cbn [length] in Hlen.
  assert (Hfront : Forall (Qle 0) front).
  { apply Forall_app in Hnn. apply Hnn. }
  pose proof (Qsum_nonneg Hfront) as Hsum.
  assert (Hsplit := @average_split_exact
                      (t0 :: front) (s0 :: props) t s depth).
  cbn [app] in Hsplit.
  specialize (Hsplit ltac:(cbn [length]; lia)
                     ltac:(constructor; [lra|assumption]) Hpos).
  cbn [app].
  destruct (depth_weighted_average (t0 :: front ++ [t])
              (s0 :: props ++ [s]) depth) as [r|]; [|exact Hsplit].
  unfold returns in *. rewrite Hsplit.
  cbn [combine finite_overlap_sum].
  rewrite (@overlap_cut 0 (0 + t0) depth) by lra.
  rewrite finite_overlap_sum_beyond
    by (lra || apply nonneg_combine, Hfront).
  rewrite overlap_halfspace_beyond;
    [|apply Qsum_nonneg; constructor; [lra|assumption]
     |rewrite Qsum_cons; lra].
  field. lra.
Qed.

Lemma cutoff_in_first_layer_witness :
  returns (depth_weighted_average (5 :: [3; 0]) (100 :: [150; 200]) 2) 100.
Proof.
  apply cutoff_in_first_layer.
  - reflexivity.
  - simpl. lia.
  - repeat constructor; discriminate.
  - reflexivity.
  - discriminate.
Defined.

(** X4.  A cutoff below the last interface: for thicknesses that are not
    negative and [depth > sum(thickness[:-1])], every finite layer counts
    with its whole thickness and the half-space with the rest of the
    window: the result is the sum of [thickness[i] * soil_prop[i] / depth]
    over the finite layers plus
    [(depth - sum(thickness[:-1])) * soil_prop[-1] / depth]. *)
Theorem cutoff_in_halfspace :
  forall (thickness soil_prop : list Q) (depth : Q),
    length thickness = length soil_prop ->
    (1 <= length thickness)%nat ->
    Forall (Qle 0) (removelast thickness) ->
    Qsum (removelast thickness) < depth ->
    returns (depth_weighted_average thickness soil_prop depth)
            (full_layers_sum
               (combine (removelast thickness) (removelast soil_prop)) depth
             + (depth - Qsum (removelast thickness))
               * last soil_prop 0 / depth).
Proof.
  intros thickness soil_prop depth Hlen Hone Hnn Hdeep.
  destruct (split_last thickness Hone) as (front & t & Eth).
  destruct (split_last soil_prop) as (props & s & Esp); [lia|].
  subst thickness soil_prop.
  rewrite !length_app in Hlen. cbn [length] in Hlen.
  rewrite !removelast_last in *. rewrite last_last.
  pose proof (Qsum_nonneg Hnn) as Hsum.
  assert (Hsplit := @average_split_exact front props t s depth
                      ltac:(lia) Hnn ltac:(lra)).
  destruct (depth_weighted_average (front ++ [t]) (props ++ [s]) depth)
    as [r|]; [|exact Hsplit].
  unfold returns in *. rewrite Hsplit.
  rewrite finite_overlap_sum_inside
    by (lra || apply nonneg_combine, Hnn
        || (rewrite map_fst_combine by lia; lra)).
  rewrite overlap_halfspace_reached by lra.
  reflexivity.
Qed.

Lemma cutoff_in_halfspace_witness :
  returns (depth_weighted_average [5; 3; 0] [100; 150; 200] 10)
          (full_layers_sum
             (combine (removelast [5; 3; 0]) (removelast [100; 150; 200])) 10
           + (10 - Qsum (removelast [5; 3; 0]))
             * last [100; 150; 200] 0 / 10).
Proof.
  apply cutoff_in_halfspace.
  - reflexivity.
  - simpl. lia.
  - repeat constructor; discriminate.
  - reflexivity.
Defined.

(** ** The result is an average *)

(** Layers that end above the cutoff weigh in with their thicknesses. *)
Lemma finite_overlap_sum_inside_bounds
    (lo hi depth : Q) (layers : list (Q * Q)) :
  forall top : Q,
    0 < depth -> 0 <= top -> nonneg_layers layers ->
    Forall (fun l => within lo hi (snd l)) layers ->
    top + Qsum (map fst layers) <= depth ->
    lo * Qsum (map fst layers) <= finite_overlap_sum top layers depth * depth
    /\ finite_overlap_sum top layers depth * depth
       <= hi * Qsum (map fst layers).
Proof.
  induction layers as [|[tk sp] rest IH]; intros top Hpos H0 Hnn Hin Hd;
    cbn [finite_overlap_sum map fst] in *.
  - rewrite Qsum_nil. lra.
  - inversion Hnn as [|? ? Htk Hrest]; subst. cbn [fst] in Htk.
    inversion Hin as [|? ? [Hlo Hhi] Hin']; subst. cbn [snd] in Hlo, Hhi.
    rewrite Qsum_cons in *.
    pose proof (nonneg_layers_sum Hrest) as Hsum.
    destruct (IH (top + tk)) as [IHlo IHhi]; try assumption; try lra.
    rewrite (@overlap_inside top (top + tk) depth) by lra.
    setoid_replace ((top + tk - top) * sp / depth) with (tk * sp / depth)
      by (unfold Qdiv; ring).
    setoid_replace ((tk * sp / depth
                     + finite_overlap_sum (top + tk) rest depth) * depth)
      with (tk * sp + finite_overlap_sum (top + tk) rest depth * depth)
      by (field; lra).
    split; nra.
Qed.

(** Layers that reach the cutoff fill the window from their top on. *)
Lemma finite_overlap_sum_cut_bounds
    (lo hi depth : Q) (layers : list (Q * Q)) :
  forall top : Q,
    0 < depth -> 0 <= top -> nonneg_layers layers ->
    Forall (fun l => within lo hi (snd l)) layers ->
    top <= depth -> depth <= top + Qsum (map fst layers) ->
    lo * (depth - top) <= finite_overlap_sum top layers depth * depth
    /\ finite_overlap_sum top layers depth * depth <= hi * (depth - top).
Proof.
  induction layers as [|[tk sp] rest IH]; intros top Hpos H0 Hnn Hin Ht Hd;
    cbn [finite_overlap_sum map fst] in *.
  - rewrite Qsum_nil in Hd.
    setoid_replace (depth - top) with 0 by lra. split; lra.
  - inversion Hnn as [|? ? Htk Hrest]; subst. cbn [fst] in Htk.
    inversion Hin as [|? ? [Hlo Hhi] Hin']; subst. cbn [snd] in Hlo, Hhi.
    rewrite Qsum_cons in *.
    destruct (Qlt_le_dec depth (top + tk)) as [Hcut|Hinside].
    + rewrite (@overlap_cut top (top + tk) depth) by lra.
      rewrite finite_overlap_sum_beyond by (assumption || lra).
      setoid_replace (((depth - top) * sp / depth + 0) * depth)
        with ((depth - top) * sp) by (field; lra).
      split; nra.
    + destruct (IH (top + tk)) as [IHlo IHhi]; try assumption; try lra.
      rewrite (@overlap_inside top (top + tk) depth) by lra.
      setoid_replace (((top + tk - top) * sp / depth
                       + finite_overlap_sum (top + tk) rest depth) * depth)
        with (tk * sp + finite_overlap_sum (top + tk) rest depth * depth)
        by (field; lra).
      split; nra.
Qed.

(** X5.  The result is an average: for thicknesses that are not negative
    and a positive [depth], when every entry of [soil_prop] lies between
    [lo] and [hi], so does the result. *)
Theorem average_within_bounds :
  forall (thickness soil_prop : list Q) (depth lo hi : Q),
    length thickness = length soil_prop ->
    (1 <= length thickness)%nat ->
    Forall (Qle 0) thickness ->
    0 < depth ->
    Forall (within lo hi) soil_prop ->
    exists r : Q,
      depth_weighted_average thickness soil_prop depth = Some r
      /\ within lo hi r.
Proof.
  intros thickness soil_prop depth lo hi Hlen Hone Hnn Hpos Hin.
  destruct (split_last thickness Hone) as (front & t & Eth).
  destruct (split_last soil_prop) as (props & s & Esp); [lia|].
  subst thickness soil_prop.
  rewrite !length_app in Hlen. cbn [length] in Hlen.
  apply Forall_app in Hnn. destruct Hnn as [Hfront _].
  apply Forall_app in Hin. destruct Hin as [Hprops Hs].
  inversion Hs as [|? ? [Hslo Hshi] _]; subst.
  pose proof (Qsum_nonneg Hfront) as Hsum.
  assert (Hsplit := @average_split_exact front props t s depth
                      ltac:(lia) Hfront Hpos).
  destruct (depth_weighted_average (front ++ [t]) (props ++ [s]) depth)
    as [r|]; [|destruct Hsplit].
  exists r. split; [reflexivity|].
  unfold returns in Hsplit.
  assert (Hlayers : Forall (fun l => within lo hi (snd l))
                      (combine front props)).
  { clear - Hprops. revert front.
    induction Hprops as [|p props Hp Hps IH]; intros [|x front]; simpl;
      constructor; auto. }
  assert (Hfst : map fst (combine front props) = front)
    by (apply map_fst_combine; lia).
  assert (Hscaled : r * depth
                    == finite_overlap_sum 0 (combine front props) depth * depth
                       + overlap (Qsum front, None) depth * s).
  { rewrite Hsplit. field. lra. }
  assert (Hgoal : lo * depth <= r * depth /\ r * depth <= hi * depth).
  { destruct (Qlt_le_dec (Qsum front) depth) as [Hdeep|Hshallow].
    - destruct (@finite_overlap_sum_inside_bounds lo hi depth
                  (combine front props) 0) as [Blo Bhi];
        try assumption; try lra;
        [apply nonneg_combine, Hfront | rewrite Hfst; lra |].
      rewrite Hfst in Blo, Bhi.
      rewrite overlap_halfspace_reached in Hscaled by lra.
      split; nra.
    - destruct (@finite_overlap_sum_cut_bounds lo hi depth
                  (combine front props) 0) as [Blo Bhi];
        try assumption; try lra;
        [apply nonneg_combine, Hfront | rewrite Hfst; lra |].
      rewrite overlap_halfspace_beyond in Hscaled by lra.
      split; nra. }
  destruct Hgoal as [Glo Ghi]. split; nra.
Qed.

Lemma average_within_bounds_witness :
  exists r : Q,
    depth_weighted_average [5; 3; 0] [100; 150; 200] 7 = Some r
    /\ within 100 200 r.
Proof.
  apply average_within_bounds.
  - reflexivity.
  - simpl. lia.
  - repeat constructor; discriminate.
  - reflexivity.
  - repeat constructor; discriminate.
Defined.

(** ** Linearity in the property *)

Lemma combine_app_same {X Y : Type} (a1 : list X) (b1 : list Y) :
  forall (a2 : list X) (b2 : list Y),
    length a1 = length b1 ->
    combine (a1 ++ a2) (b1 ++ b2) = combine a1 b1 ++ combine a2 b2.
Proof.
  revert b1.
  induction a1 as [|x a1 IH]; intros [|y b1] a2 b2 Hlen;
    simpl in Hlen; try discriminate.
  - reflexivity.
  - simpl. f_equal. apply IH. congruence.
Qed.

Lemma linear_combination_snoc (c1 c2 s1 s2 : Q) (p1 p2 : list Q) :
  length p1 = length p2 ->
  linear_combination c1 (p1 ++ [s1]) c2 (p2 ++ [s2])
  = linear_combination c1 p1 c2 p2 ++ [c1 * s1 + c2 * s2].
Proof.
  intros Hlen. unfold linear_combination.
  rewrite combine_app_same by exact Hlen.
  rewrite map_app. reflexivity.
Qed.

(** The loop on a combination of two properties: it takes the branches it
    takes on each of them, and its [mean_value] is the combination of
    theirs. *)
Lemma layers_loop_linear (c1 c2 depth : Q) (tks : list Q) :
  forall (sp1 sp2 : list Q) (m1 m2 m total : Q),
    length sp1 = length sp2 ->
    m == c1 * m1 + c2 * m2 ->
    let st1 := layers_loop (combine tks sp1) depth m1 total in
    let st2 := layers_loop (combine tks sp2) depth m2 total in
    let st := layers_loop
                (combine tks (linear_combination c1 sp1 c2 sp2))
                depth m total in
    total_depth st = total_depth st1
    /\ total_depth st2 = total_depth st1
    /\ mean_value st == c1 * mean_value st1 + c2 * mean_value st2.
Proof.
  induction tks as [|tk tks IH]; intros [|s1 sp1] [|s2 sp2] m1 m2 m total
    Hlen Hm; simpl in Hlen; try discriminate;
    cbn [combine linear_combination map layers_loop fst snd];
    cbn [mean_value total_depth]; try (repeat split; (reflexivity || exact Hm)).
  exact_arith.
  destruct (Qltb (tk + total) depth).
  - apply IH; [congruence|].
    rewrite Hm. unfold Qdiv. ring.
  - cbn [mean_value total_depth]. repeat split.
    rewrite Hm. unfold Qdiv. ring.
Qed.

(** X6.  [depth_weighted_average] is linear in the property: on
    [c1*sp1 + c2*sp2], for two property arrays of one length, it returns
    [c1] times the result on [sp1] plus [c2] times the result on [sp2]
    (and faults when they do), for any thicknesses and any [depth]. *)
Theorem average_is_linear :
  forall (thickness sp1 sp2 : list Q) (depth c1 c2 : Q),
    length sp1 = length sp2 ->
    same_result
      (depth_weighted_average thickness
         (linear_combination c1 sp1 c2 sp2) depth)
      (add_results
         (scale_result c1 (depth_weighted_average thickness sp1 depth))
         (scale_result c2 (depth_weighted_average thickness sp2 depth))).
Proof.
  intros thickness sp1 sp2 depth c1 c2 Hlen.
  unfold depth_weighted_average, halfspace_branch, run_layers.
  destruct sp1 as [|a1 r1].
  - destruct sp2; [|discriminate].
    cbn [linear_combination combine map removelast last_item].
    rewrite combine_nil. cbn [layers_loop mean_value total_depth].
    destruct (_ =? _)%num; simpl; [exact I|]. ring.
  - destruct (@split_last _ (a1 :: r1)) as (p1 & s1 & E1);
      [simpl; lia|].
    destruct (@split_last _ sp2) as (p2 & s2 & E2);
      [rewrite <- Hlen; simpl; lia|].
    rewrite E1, E2 in *. clear E1 E2 a1 r1 sp2.
    rewrite !length_app in Hlen. cbn [length] in Hlen.
    assert (Hp : length p1 = length p2) by lia.
    rewrite linear_combination_snoc by exact Hp.
    rewrite !removelast_last, !last_item_app.
    destruct (@layers_loop_linear c1 c2 depth (removelast thickness)
                p1 p2 0 0 0 0 Hp ltac:(ring)) as (Et & Et2 & Em).
    exact_arith. rewrite Et, Et2.
    destruct (Qeq_bool _ _); simpl.
    + unfold halfspace_term. exact_arith.
      rewrite Em. unfold Qdiv. ring.
    + exact Em.
Qed.

Lemma average_is_linear_witness :
  same_result
    (depth_weighted_average [5; 3; 0]
       (linear_combination 2 [100; 150; 200] 3 [1; 2; 4]) 7)
    (add_results
       (scale_result 2 (depth_weighted_average [5; 3; 0] [100; 150; 200] 7))
       (scale_result 3 (depth_weighted_average [5; 3; 0] [1; 2; 4] 7))).
Proof.
  apply average_is_linear. reflexivity.
Defined.

(** ** Independence of the unit of length *)

Lemma Qltb_scale (c x y x' y' : Q) :
  0 < c -> x' == c * x -> y' == c * y -> Qltb x' y' = Qltb x y.
Proof.
  intros Hc Ex Ey.
  destruct (Qltb x y) eqn:E.
  - apply Qltb_lt in E. apply Qltb_lt. rewrite Ex, Ey. nra.
  - apply Qltb_ge in E. apply Qltb_ge. rewrite Ex, Ey. nra.
Qed.

Lemma Qeq_bool_scale (c x y x' y' : Q) :
  0 < c -> x' == c * x -> y' == c * y -> Qeq_bool x' y' = Qeq_bool x y.
Proof.
  intros Hc Ex Ey.
  destruct (Qeq_bool x y) eqn:E.
  - apply Qeq_bool_iff in E. apply Qeq_bool_iff. rewrite Ex, Ey, E.
    reflexivity.
  - apply Qeq_bool_false. intros H. rewrite Ex, Ey in H.
    apply Qeq_bool_neq in E. apply E.
    destruct (Q_dec x y) as [[Hlt|Hgt]|Heq]; [nra | nra | exact Heq].
Qed.

Lemma Qsum_map_scale (c : Q) (a : list Q) :
  Qsum (map (Qmult c) a) == c * Qsum a.
Proof.
  induction a as [|x a IH]; cbn [map].
  - rewrite Qsum_nil. ring.
  - rewrite !Qsum_cons, IH. ring.
Qed.

Lemma removelast_map {X Y : Type} (f : X -> Y) (a : list X) :
  removelast (map f a) = map f (removelast a).
Proof.
  induction a as [|x [|y a] IH]; [reflexivity | reflexivity |].
  cbn [map removelast] in *. rewrite IH. reflexivity.
Qed.

(** The loop on thicknesses and a cutoff given in another unit: it takes
    the same branches and accumulates the same [mean_value]. *)
Lemma layers_loop_rescaled (c depth : Q) (tks : list Q) :
  0 < c -> 0 < depth ->
  forall (sps : list Q) (mean mean' total total' : Q),
    total' == c * total -> mean' == mean ->
    let st := layers_loop (combine tks sps) depth mean total in
    let st' := layers_loop (combine (map (Qmult c) tks) sps)
                 (c * depth) mean' total' in
    stopped st' = stopped st
    /\ total_depth st' == c * total_depth st
    /\ mean_value st' == mean_value st.
Proof.
  intros Hc Hd.
  induction tks as [|tk tks IH]; intros [|sp sps] mean mean' total total'
    Ht Hm; cbn [map combine layers_loop mean_value total_depth stopped];
    try (repeat split; assumption).
  exact_arith.
  rewrite (@Qltb_scale c (tk + total) depth (c * tk + total') (c * depth) Hc)
    by (rewrite ?Ht; ring).
  destruct (Qltb (tk + total) depth).
  - apply IH.
    + rewrite Ht. ring.
    + rewrite Hm. field. lra.
  - cbn [mean_value total_depth stopped]. repeat split; [exact Ht|].
    rewrite Hm, Ht. field. lra.
Qed.

(** X7.  The unit of length does not matter: with every thickness and the
    [depth] multiplied by one positive factor, [depth_weighted_average]
    returns the same value (and faults when it did), for any arrays and any
    positive [depth]. *)
Theorem average_is_unit_free :
  forall (thickness soil_prop : list Q) (depth c : Q),
    0 < c -> 0 < depth ->
    same_result
      (depth_weighted_average (map (Qmult c) thickness) soil_prop (c * depth))
      (depth_weighted_average thickness soil_prop depth).
Proof.
  intros thickness soil_prop depth c Hc Hd.
  unfold depth_weighted_average, halfspace_branch, run_layers.
  rewrite removelast_map.
  destruct (@layers_loop_rescaled c depth (removelast thickness) Hc Hd
              (removelast soil_prop) 0 0 0 0 ltac:(ring) ltac:(reflexivity))
    as (_ & Et & Em).
  exact_arith.
  rewrite (@Qeq_bool_scale c
             (total_depth (layers_loop
                (combine (removelast thickness) (removelast soil_prop))
                depth 0 0))
             (Qsum (removelast thickness)) _ _ Hc Et
             (Qsum_map_scale c (removelast thickness))).
  destruct (Qeq_bool _ _).
  - destruct (last_item soil_prop) as [s|]; simpl; [|exact I].
    unfold halfspace_term. exact_arith.
    rewrite Em, Et. field. lra.
  - exact Em.
Qed.

Lemma average_is_unit_free_witness :
  same_result
    (depth_weighted_average (map (Qmult 100) [5; 3; 0])
       [100; 150; 200] (100 * 7))
    (depth_weighted_average [5; 3; 0] [100; 150; 200] 7).
Proof.
  apply average_is_unit_free; reflexivity.
Defined.

(** ** Layers below the cutoff *)

Lemma finite_overlap_sum_app_beyond
    (above below : list (Q * Q)) (depth : Q) :
  forall top : Q,
    0 <= top -> nonneg_layers above -> nonneg_layers below ->
    depth <= top + Qsum (map fst above) ->
    finite_overlap_sum top (above ++ below) depth
    == finite_overlap_sum top above depth.
Proof.
  induction above as [|[tk sp] above IH]; intros top H0 Ha Hb Hd;
    cbn [app finite_overlap_sum map fst] in *.
  - rewrite Qsum_nil in Hd.
    apply finite_overlap_sum_beyond; [assumption | lra | assumption].
  - inversion Ha as [|? ? Htk Ha']; subst. cbn [fst] in Htk.
    rewrite Qsum_cons in Hd.
    rewrite IH by (assumption || lra). reflexivity.
Qed.

(** The result when the cutoff lies within the layers [front]: the weights
    of these layers alone. *)
Lemma average_above_cutoff
    (front props mid props_mid : list Q) (t s depth : Q) :
  length front = length props ->
  length mid = length props_mid ->
  Forall (Qle 0) front -> Forall (Qle 0) mid ->
  0 < depth -> depth <= Qsum front ->
  returns (depth_weighted_average (front ++ mid ++ [t])
             (props ++ props_mid ++ [s]) depth)
          (finite_overlap_sum 0 (combine front props) depth).
Proof.
  intros Hlen Hmid Hfront Hnmid Hpos Hcut.
  assert (Hall : Forall (Qle 0) (front ++ mid))
    by (apply Forall_app; split; assumption).
  pose proof (Qsum_nonneg Hnmid) as Hsum.
  assert (Hsplit := @average_split_exact (front ++ mid) (props ++ props_mid)
                      t s depth
                      ltac:(rewrite !length_app; lia) Hall Hpos).
  rewrite <- !app_assoc in Hsplit.
  destruct (depth_weighted_average (front ++ mid ++ [t])
              (props ++ props_mid ++ [s]) depth) as [r|]; [|exact Hsplit].
  unfold returns in *. rewrite Hsplit.
  rewrite combine_app_same by exact Hlen.
  rewrite finite_overlap_sum_app_beyond;
    [| lra | apply nonneg_combine, Hfront | apply nonneg_combine, Hnmid
     | rewrite map_fst_combine by lia; lra].
  rewrite overlap_halfspace_beyond;
    [| apply Qsum_nonneg, Hall | rewrite Qsum_app; lra].
  unfold Qdiv. ring.
Qed.

(** X8.  What lies below the cutoff does not count: two profiles that
    share the layers [front], with thicknesses that are not negative and a
    positive [depth] within these layers ([depth <= sum(front)]), have the
    same average, whatever thicknesses and properties they have below. *)
Theorem layers_below_cutoff_do_not_count :
  forall (front props mid1 props1 mid2 props2 : list Q)
         (t1 s1 t2 s2 depth : Q),
    length front = length props ->
    length mid1 = length props1 ->
    length mid2 = length props2 ->
    Forall (Qle 0) front -> Forall (Qle 0) mid1 -> Forall (Qle 0) mid2 ->
    0 < depth -> depth <= Qsum front ->
    same_result
      (depth_weighted_average (front ++ mid1 ++ [t1])
         (props ++ props1 ++ [s1]) depth)
      (depth_weighted_average (front ++ mid2 ++ [t2])
         (props ++ props2 ++ [s2]) depth).
Proof.
  intros front props mid1 props1 mid2 props2 t1 s1 t2 s2 depth
    Hlen H1 H2 Hfront Hm1 Hm2 Hpos Hcut.
  pose proof (@average_above_cutoff front props mid1 props1 t1 s1 depth
                Hlen H1 Hfront Hm1 Hpos Hcut) as R1.
  pose proof (@average_above_cutoff front props mid2 props2 t2 s2 depth
                Hlen H2 Hfront Hm2 Hpos Hcut) as R2.
  destruct (depth_weighted_average (front ++ mid1 ++ [t1]) _ depth) as [r1|];
    [|destruct R1].
  destruct (depth_weighted_average (front ++ mid2 ++ [t2]) _ depth) as [r2|];
    [|destruct R2].
  unfold returns, same_result in *. rewrite R1, R2. reflexivity.
Qed.

Lemma layers_below_cutoff_do_not_count_witness :
  same_result
    (depth_weighted_average ([5; 3] ++ [4] ++ [0])
       ([100; 150] ++ [170] ++ [200]) 7)
    (depth_weighted_average ([5; 3] ++ [] ++ [9])
       ([100; 150] ++ [] ++ [1]) 7).
Proof.
  apply layers_below_cutoff_do_not_count;
    try reflexivity; try discriminate;
    repeat constructor; discriminate.
Defined.

(** ** Kappa as an attenuation integral *)

(** The result by index, from the split form. *)
Lemma average_by_index_exact (thickness soil_prop : list Q) (depth : Q) :
  length thickness = length soil_prop ->
  (1 <= length thickness)%nat ->
  Forall (Qle 0) thickness ->
  0 < depth ->
  returns (depth_weighted_average thickness soil_prop depth)
          (overlap_average thickness soil_prop depth).
Proof.
  intros Hlen Hone Hnn Hpos.
  destruct (split_last thickness Hone) as (front & t & Eth).
  destruct (split_last soil_prop) as (props & s & Esp); [lia|].
  subst thickness soil_prop.
  rewrite !length_app in Hlen. cbn [length] in Hlen.
  apply Forall_app in Hnn. destruct Hnn as [Hfront _].
  assert (Hsplit := @average_split_exact front props t s depth
                      ltac:(lia) Hfront Hpos).
  destruct (depth_weighted_average (front ++ [t]) (props ++ [s]) depth)
    as [r|]; [|exact Hsplit].
  unfold returns in *.
  rewrite overlap_average_split by lia. exact Hsplit.
Qed.

Lemma nonzero_nth (a : list Q) (i : nat) :
  nonzero_entries a -> (i < length a)%nat -> ~ nth i a 0 == 0.
Proof.
  intros Hnz Hi.
  apply (proj1 (Forall_forall _ a) Hnz). apply nth_In, Hi.
Qed.

Lemma layer_kappa_nth (depth : Q) (s_velocity s_quality : list Q) (i : nat) :
  length s_velocity = length s_quality ->
  (i < length s_velocity)%nat ->
  nth i (layer_kappa depth s_velocity s_quality) 0
  = depth / (nth i s_velocity 0 * nth i s_quality 0).
Proof.
  intros Hlen Hi.
  apply nth_error_nth.
  apply (layer_kappa_entry (num := exact));
    apply nth_error_nth'; lia.
Qed.

(** Averaging the kappa vector cancels the [depth] it was built with. *)
Lemma overlap_average_of_layer_kappa
    (thickness s_velocity s_quality : list Q) (depth : Q) :
  length thickness = length s_velocity ->
  length s_velocity = length s_quality ->
  0 < depth ->
  nonzero_entries s_velocity -> nonzero_entries s_quality ->
  overlap_average thickness (layer_kappa depth s_velocity s_quality) depth
  == kappa_integral thickness s_velocity s_quality depth.
Proof.
  intros Hth Hlen Hpos Hv Hq.
  unfold overlap_average, kappa_integral.
  apply Qsum_map_ext. intros i Hi. apply in_seq in Hi.
  rewrite layer_kappa_nth by lia.
  pose proof (@nonzero_nth s_velocity i Hv ltac:(lia)).
  pose proof (@nonzero_nth s_quality i Hq ltac:(lia)).
  field. repeat split; (assumption || lra).
Qed.

Lemma length_layer_kappa (depth : Q) (s_velocity s_quality : list Q) :
  length s_velocity = length s_quality ->
  length (layer_kappa depth s_velocity s_quality) = length s_velocity.
Proof.
  intros Hlen. unfold layer_kappa.
  rewrite length_map, length_combine. lia.
Qed.

(** X9.  Kappa is the attenuation accumulated down to [depth]: for three
    arrays of one length, thicknesses that are not negative, velocities
    and quality factors that are not zero and a positive [depth] supplied,
    [compute_site_kappa] returns the sum over the layers of
    [overlap_i / (s_velocity[i] * s_quality[i])], [overlap_i] being the
    length of layer [i] within [[0, depth]]. *)
Theorem site_kappa_is_attenuation_integral :
  forall (thickness s_velocity s_quality : list Q) (depth : Q),
    length thickness = length s_velocity ->
    length s_velocity = length s_quality ->
    (1 <= length thickness)%nat ->
    Forall (Qle 0) thickness ->
    nonzero_entries s_velocity -> nonzero_entries s_quality ->
    0 < depth ->
    returns (compute_site_kappa thickness s_velocity s_quality (Some depth))
            (kappa_integral thickness s_velocity s_quality depth).
Proof.
  intros thickness s_velocity s_quality depth Hth Hlen Hone Hnn Hv Hq Hpos.
  rewrite site_kappa_supplied
    by (exact Hlen || apply positive_is_truthy, Hpos).
  pose proof (@average_by_index_exact thickness
                (layer_kappa depth s_velocity s_quality) depth) as Havg.
  rewrite length_layer_kappa in Havg by exact Hlen.
  specialize (Havg Hth Hone Hnn Hpos).
  destruct (depth_weighted_average thickness
              (layer_kappa depth s_velocity s_quality) depth) as [r|];
    [|exact Havg].
  unfold returns in *. rewrite Havg.
  apply overlap_average_of_layer_kappa; assumption.
Qed.

Lemma site_kappa_is_attenuation_integral_witness :
  returns (compute_site_kappa [10; 5; 0] [200; 250; 300] [20; 25; 30]
             (Some 12))
          (kappa_integral [10; 5; 0] [200; 250; 300] [20; 25; 30] 12).
Proof.
  apply site_kappa_is_attenuation_integral;
    try reflexivity; try (simpl; lia);
    repeat constructor; discriminate.
Defined.

(** ** Kappa of the whole profile *)

Lemma layer_top_S (thickness : list Q) :
  forall i : nat,
    (i < length thickness)%nat ->
    layer_top thickness (S i) == layer_top thickness i + nth i thickness 0.
Proof.
  induction thickness as [|x a IH]; intros i Hi; simpl in Hi; [lia|].
  destruct i as [|j].
  - unfold layer_top. cbn [firstn nth].
    rewrite Qsum_cons, !Qsum_nil. ring.
  - rewrite !layer_top_cons. cbn [nth]. rewrite IH by lia. ring.
Qed.

Lemma layer_top_nonneg (thickness : list Q) (i : nat) :
  Forall (Qle 0) thickness -> 0 <= layer_top thickness i.
Proof.
  intros Hnn. apply Qsum_nonneg.
  rewrite <- (firstn_skipn i thickness) in Hnn.
  apply Forall_app in Hnn. apply Hnn.
Qed.

Lemma layer_top_le_sum (thickness : list Q) (i : nat) :
  Forall (Qle 0) thickness -> layer_top thickness i <= Qsum thickness.
Proof.
  intros Hnn. unfold layer_top.
  rewrite <- (firstn_skipn i thickness) at 2.
  rewrite <- (firstn_skipn i thickness) in Hnn.
  apply Forall_app in Hnn. destruct Hnn as [_ Hskip].
  rewrite Qsum_app. pose proof (Qsum_nonneg Hskip). lra.
Qed.

(** With the window reaching down to [sum(thickness)], every layer lies in
    it with the thickness given for it, the half-space too. *)
Lemma overlap_with_whole_profile (thickness : list Q) (i : nat) :
  Forall (Qle 0) thickness ->
  (i < length thickness)%nat ->
  overlap (layer_interval thickness i) (Qsum thickness) == nth i thickness 0.
Proof.
  intros Hnn Hi. unfold layer_interval.
  pose proof (layer_top_nonneg i Hnn) as H0.
  pose proof (layer_top_le_sum i Hnn) as Hle.
  pose proof (layer_top_le_sum (S i) Hnn) as HleS.
  pose proof (layer_top_S thickness Hi) as HS.
  assert (Hnth : 0 <= nth i thickness 0).
  { apply (proj1 (Forall_forall _ thickness) Hnn). apply nth_In, Hi. }
  destruct (S i =? length thickness)%nat eqn:Elast.
  - apply Nat.eqb_eq in Elast.
    rewrite overlap_halfspace_reached by assumption.
    assert (Eall : layer_top thickness (S i) = Qsum thickness).
    { unfold layer_top. rewrite Elast, firstn_all. reflexivity. }
    rewrite <- Eall, HS. ring.
  - rewrite overlap_inside by lra. rewrite HS. ring.
Qed.

(** X10.  Without [depth], kappa is the attenuation of the whole profile:
    for three arrays of one length, thicknesses that are not negative and
    not all zero, velocities and quality factors that are not zero,
    [compute_site_kappa] returns the sum over all layers of
    [thickness[i] / (s_velocity[i] * s_quality[i])]. *)
Theorem site_kappa_of_whole_profile :
  forall (thickness s_velocity s_quality : list Q),
    length thickness = length s_velocity ->
    length s_velocity = length s_quality ->
    Forall (Qle 0) thickness ->
    0 < Qsum thickness ->
    nonzero_entries s_velocity -> nonzero_entries s_quality ->
    returns (compute_site_kappa thickness s_velocity s_quality None)
            (attenuation_sum thickness s_velocity s_quality).
Proof.
  intros thickness s_velocity s_quality Hth Hlen Hnn Hpos Hv Hq.
  assert (Hone : (1 <= length thickness)%nat).
  { destruct thickness; [|simpl; lia].
    rewrite Qsum_nil in Hpos. lra. }
  rewrite (@site_kappa_depth_irrelevant _ exact thickness s_velocity
             s_quality None (Some (Qsum thickness)))
    by (symmetry; apply (effective_depth_of_sum (num := exact))).
  rewrite site_kappa_supplied
    by (exact Hlen || apply positive_is_truthy, Hpos).
  pose proof (@average_by_index_exact thickness
                (layer_kappa (Qsum thickness) s_velocity s_quality)
                (Qsum thickness)) as Havg.
  rewrite length_layer_kappa in Havg by exact Hlen.
  specialize (Havg Hth Hone Hnn Hpos).
  destruct (depth_weighted_average thickness
              (layer_kappa (Qsum thickness) s_velocity s_quality)
              (Qsum thickness)) as [r|]; [|exact Havg].
  unfold returns in *. rewrite Havg.
  rewrite overlap_average_of_layer_kappa by assumption.
  unfold kappa_integral, attenuation_sum.
  apply Qsum_map_ext. intros i Hi. apply in_seq in Hi.
  rewrite overlap_with_whole_profile by (assumption || lia).
  reflexivity.
Qed.

Lemma site_kappa_of_whole_profile_witness :
  returns (compute_site_kappa [10; 5; 0] [200; 250; 300] [20; 25; 30] None)
          (attenuation_sum [10; 5; 0] [200; 250; 300] [20; 25; 30]).
Proof.
  apply site_kappa_of_whole_profile;
    try reflexivity; repeat constructor; discriminate.
Defined.

(** ** Velocity and quality factor enter through their product *)

Section ProductSymmetry.
Context {A : Type} {num : Scalar A}.
Hypothesis nmul_comm : forall a b : A, nmul a b = nmul b a.

Lemma pointwise_product_comm (xs : list A) :
  forall ys : list A,
    map (fun p => nmul (fst p) (snd p)) (combine xs ys)
    = map (fun p => nmul (fst p) (snd p)) (combine ys xs).
Proof.
  induction xs as [|x xs IH]; intros [|y ys]; simpl; try reflexivity.
  rewrite IH, nmul_comm. reflexivity.
Qed.

Lemma array_mul_comm (xs ys : list A) : array_mul xs ys = array_mul ys xs.
Proof.
  unfold array_mul. rewrite (Nat.eqb_sym (length ys)).
  destruct (length xs =? length ys)%nat eqn:E.
  - rewrite pointwise_product_comm. reflexivity.
  - destruct xs as [|x [|x' xs]]; destruct ys as [|y [|y' ys]];
      simpl in E; try discriminate; try reflexivity;
      f_equal; apply map_ext; intros a; apply nmul_comm.
Qed.

Lemma site_kappa_comm
    (thickness s_velocity s_quality : list A) (depth : option A) :
  compute_site_kappa thickness s_velocity s_quality depth
  = compute_site_kappa thickness s_quality s_velocity depth.
Proof.
  unfold compute_site_kappa. rewrite array_mul_comm. reflexivity.
Qed.

End ProductSymmetry.

Lemma Qmult_comm_leibniz (a b : Q) : (a * b)%Q = (b * a)%Q.
Proof.
  destruct a as [na da], b as [nb db]. unfold Qmult. cbn [Qnum Qden].
  rewrite Z.mul_comm, Pos.mul_comm. reflexivity.
Qed.

Lemma mul_comm64 (a b : float) : (a * b)%float = (b * a)%float.
Proof.
  apply Prim2SF_inj. rewrite !mul_spec.
  unfold SF64mul, SFmul.
  destruct (Prim2SF a) as [sa|sa| |sa ma ea];
    destruct (Prim2SF b) as [sb|sb| |sb mb eb];
    try reflexivity; rewrite (xorb_comm sa sb); try reflexivity.
  rewrite Pos.mul_comm, Z.add_comm. reflexivity.
Qed.

(** X11.  The two arrays [s_velocity] and [s_quality] enter
    [compute_site_kappa] only through their elementwise product:
    exchanging them gives the same result, fault or value, in exact
    arithmetic and in double precision, for arrays of any lengths and any
    [depth] argument. *)
Theorem site_kappa_exchanges_velocity_and_quality :
  (forall (thickness s_velocity s_quality : list Q) (depth : option Q),
      compute_site_kappa thickness s_velocity s_quality depth
      = compute_site_kappa thickness s_quality s_velocity depth)
  /\ (forall (reduce : list float -> float)
             (thickness s_velocity s_quality : list float)
             (depth : option float),
        @compute_site_kappa _ (binary64 reduce)
          thickness s_velocity s_quality depth
        = @compute_site_kappa _ (binary64 reduce)
            thickness s_quality s_velocity depth).
Proof.
  split.
  - intros thickness s_velocity s_quality depth.
    apply (@site_kappa_comm Q exact). exact Qmult_comm_leibniz.
  - intros reduce thickness s_velocity s_quality depth.
    apply (@site_kappa_comm float (binary64 reduce)). exact mul_comm64.
Qed.

(** ** A depth that is not a number *)

Lemma is_nan_spec (x : float) :
  PrimFloat.is_nan x = true <-> Prim2SF x = S754_nan.
Proof.
  unfold PrimFloat.is_nan. rewrite eqb_spec.
  destruct (Prim2SF x) as [s|s| |s m e].
  - destruct s; split; discriminate.
  - destruct s; split; discriminate.
  - split; reflexivity.
  - rewrite SFeqb_refl_finite. split; discriminate.
Qed.

Lemma div_by_nan (x d : float) :
  PrimFloat.is_nan d = true -> PrimFloat.is_nan (x / d) = true.
Proof.
  rewrite !is_nan_spec, div_spec. intros E. rewrite E.
  unfold SF64div, SFdiv.
  destruct (Prim2SF x) as [sx|sx| |sx mx ex]; reflexivity.
Qed.

Lemma add_nan (a b : float) :
  PrimFloat.is_nan a = true \/ PrimFloat.is_nan b = true ->
  PrimFloat.is_nan (a + b) = true.
Proof.
  rewrite !is_nan_spec, add_spec. unfold SF64add, SFadd.
  intros [E|E]; rewrite E.
  - reflexivity.
  - destruct (Prim2SF a) as [sa|sa| |sa ma ea]; reflexivity.
Qed.

Lemma ltb_nan (x d : float) :
  PrimFloat.is_nan d = true -> PrimFloat.ltb x d = false.
Proof.
  rewrite is_nan_spec, ltb_spec. intros E. rewrite E.
  unfold SFltb, SFcompare.
  destruct (Prim2SF x) as [sx|sx| |sx mx ex]; reflexivity.
Qed.

(** X12.  On double-precision arrays of one length, at least 1, a [depth]
    that is a NaN gives a NaN: the comparison with [depth] fails at the
    first layer, and whatever is added is a quotient by [depth].  The
    summation routine is any one that returns zero on the empty array. *)
Theorem nan_depth_returns_nan :
  forall (reduce : list float -> float)
         (thickness soil_prop : list float) (depth : float),
    PrimFloat.eqb 0 (reduce []) = true ->
    PrimFloat.is_nan depth = true ->
    length thickness = length soil_prop ->
    (1 <= length thickness)%nat ->
    exists r : float,
      @depth_weighted_average _ (binary64 reduce) thickness soil_prop depth
      = Some r
      /\ PrimFloat.is_nan r = true.
Proof.
  intros reduce thickness soil_prop depth Hsum Hnan Hlen Hone.
  destruct (@last_item_nonempty _ soil_prop) as [sp_last Elast].
  { destruct soil_prop; simpl in *; [lia|discriminate]. }
  unfold depth_weighted_average, halfspace_branch, run_layers.
  rewrite Elast.
  destruct thickness as [|t0 [|t1 th]]; [simpl in Hone; lia| |];
    destruct soil_prop as [|s0 [|s1 sp]]; simpl in Hlen; try discriminate.
  - cbn [removelast combine layers_loop total_depth mean_value].
    cbn [neqb np_sum zero binary64]. rewrite Hsum.
    eexists. split; [reflexivity|].
    apply add_nan. right. apply div_by_nan, Hnan.
  - cbn [removelast combine layers_loop].
    cbn [nltb binary64]. rewrite (ltb_nan _ depth Hnan).
    cbn [total_depth mean_value].
    assert (Hmean : forall x y : float,
              PrimFloat.is_nan (x + y / depth) = true)
      by (intros x y; apply add_nan; right; apply div_by_nan, Hnan).
    destruct (_ =? _)%num.
    + eexists. split; [reflexivity|]. apply add_nan. left. apply Hmean.
    + eexists. split; [reflexivity|]. apply Hmean.
Qed.

Lemma nan_depth_returns_nan_witness :
  exists r : float,
    depth_weighted_average64 [5; 0]%float [100; 200]%float nan = Some r
    /\ PrimFloat.is_nan r = true.
Proof.
  apply (@nan_depth_returns_nan sequential_sum
           [5; 0]%float [100; 200]%float nan);
    reflexivity || (simpl; lia).
Defined.

(** ** Refining the layering *)

Lemma overlap_halfspace_compat (lo lo' depth : Q) :
  lo == lo' -> overlap (lo, None) depth == overlap (lo', None) depth.
Proof.
  intros El. unfold overlap. rewrite El. reflexivity.
Qed.

Lemma finite_overlap_sum_compat (layers : list (Q * Q)) (depth : Q) :
  forall top top' : Q,
    top == top' ->
    finite_overlap_sum top layers depth
    == finite_overlap_sum top' layers depth.
Proof.
  induction layers as [|[tk sp] rest IH]; intros top top' E;
    cbn [finite_overlap_sum].
  - reflexivity.
  - rewrite (@overlap_compat top top' (top + tk) (top' + tk) depth)
      by (rewrite ?E; reflexivity).
    rewrite (IH (top + tk) (top' + tk)) by (rewrite E; reflexivity).
    reflexivity.
Qed.

(** The overlap of a layer is the sum of the overlaps of its two parts. *)
Lemma overlap_of_two_parts (top a b depth : Q) :
  0 <= top -> 0 <= a -> 0 <= b ->
  overlap (top, Some (top + (a + b))) depth
  == overlap (top, Some (top + a)) depth
     + overlap (top + a, Some (top + a + b)) depth.
Proof.
  intros H0 Ha Hb.
  destruct (Qlt_le_dec top depth) as [Htop|Htop].
  - destruct (Qlt_le_dec (top + a) depth) as [Hmid|Hmid].
    + destruct (Qlt_le_dec (top + a + b) depth) as [Hbot|Hbot].
      * rewrite !overlap_inside by lra. ring.
      * rewrite (@overlap_cut top (top + (a + b)) depth) by lra.
        rewrite (@overlap_inside top (top + a) depth) by lra.
        rewrite (@overlap_cut (top + a) (top + a + b) depth) by lra.
        ring.
    + rewrite (@overlap_cut top (top + (a + b)) depth) by lra.
      rewrite (@overlap_cut top (top + a) depth) by lra.
      rewrite (@overlap_beyond (top + a) (top + a + b) depth) by lra.
      ring.
  - rewrite !overlap_beyond by lra. ring.
Qed.

Lemma finite_overlap_sum_refined
    (above below : list (Q * Q)) (a b s depth : Q) :
  forall top : Q,
    0 <= top -> nonneg_layers above -> 0 <= a -> 0 <= b ->
    finite_overlap_sum top (above ++ (a + b, s) :: below) depth
    == finite_overlap_sum top (above ++ (a, s) :: (b, s) :: below) depth.
Proof.
  induction above as [|[tk sp] above IH]; intros top H0 Hnn Ha Hb;
    cbn [app finite_overlap_sum].
  - rewrite overlap_of_two_parts by assumption.
    rewrite (@finite_overlap_sum_compat below depth
               (top + (a + b)) (top + a + b)) by ring.
    unfold Qdiv. ring.
  - inversion Hnn as [|? ? Htk Hrest]; subst. cbn [fst] in Htk.
    rewrite IH by (assumption || lra). reflexivity.
Qed.

(** X13.  Refining the layering does not change the average: dividing a
    finite layer of thickness [a + b] into two layers of thicknesses [a]
    and [b] with its property gives the same result, for thicknesses that
    are not negative and a positive [depth]. *)
Theorem average_of_refined_profile :
  forall (above props_above below props_below : list Q)
         (a b s t s_last depth : Q),
    length above = length props_above ->
    length below = length props_below ->
    Forall (Qle 0) above -> Forall (Qle 0) below ->
    0 <= a -> 0 <= b -> 0 < depth ->
    same_result
      (depth_weighted_average
         (above ++ [a + b] ++ below ++ [t])
         (props_above ++ [s] ++ props_below ++ [s_last]) depth)
      (depth_weighted_average
         (above ++ [a; b] ++ below ++ [t])
         (props_above ++ [s; s] ++ props_below ++ [s_last]) depth).
Proof.
  intros above props_above below props_below a b s t s_last depth
    Hla Hlb Hna Hnb Ha Hb Hpos.
  assert (R1 := @average_split_exact
                  (above ++ [a + b] ++ below)
                  (props_above ++ [s] ++ props_below) t s_last depth).
  assert (R2 := @average_split_exact
                  (above ++ [a; b] ++ below)
                  (props_above ++ [s; s] ++ props_below) t s_last depth).
  rewrite <- !app_assoc in R1, R2.
  specialize (R1 ltac:(rewrite !length_app; cbn [length]; lia)
                 ltac:(repeat (apply Forall_app; split);
                       try assumption; repeat constructor; lra) Hpos).
  specialize (R2 ltac:(rewrite !length_app; cbn [length]; lia)
                 ltac:(repeat (apply Forall_app; split);
                       try assumption; repeat constructor; assumption) Hpos).
  destruct (depth_weighted_average (above ++ [a + b] ++ below ++ [t]) _ depth)
    as [r1|]; [|destruct R1].
  destruct (depth_weighted_average (above ++ [a; b] ++ below ++ [t]) _ depth)
    as [r2|]; [|destruct R2].
  unfold returns, same_result in *. rewrite R1, R2.
  rewrite (@combine_app_same _ _ above props_above
             ([a + b] ++ below) ([s] ++ props_below) Hla).
  rewrite (@combine_app_same _ _ above props_above
             ([a; b] ++ below) ([s; s] ++ props_below) Hla).
  cbn [app combine].
  rewrite finite_overlap_sum_refined
    by (lra || assumption || apply nonneg_combine, Hna).
  rewrite (@overlap_halfspace_compat
             (Qsum (above ++ a + b :: below))
             (Qsum (above ++ a :: b :: below)) depth)
    by (rewrite !Qsum_app, !Qsum_cons; ring).
  reflexivity.
Qed.

Lemma average_of_refined_profile_witness :
  same_result
    (depth_weighted_average ([5] ++ [1 + 2] ++ [4] ++ [0])
       ([100] ++ [150] ++ [170] ++ [200]) 7)
    (depth_weighted_average ([5] ++ [1; 2] ++ [4] ++ [0])
       ([100] ++ [150; 150] ++ [170] ++ [200]) 7).
Proof.
  apply average_of_refined_profile;
    try reflexivity; try discriminate;
    repeat constructor; discriminate.
Defined.

(** ** A negative depth *)

(** X14.  A negative [depth] is not rejected: on a profile of two layers
    or more with thicknesses that are not negative, not all zero above the
    half-space, the test [tk + total_depth < depth] fails at the first
    layer and the call returns [soil_prop[0]]. *)
Theorem negative_depth_returns_first_property :
  forall (t0 s0 : Q) (rest_thickness rest_prop : list Q) (depth : Q),
    length rest_thickness = length rest_prop ->
    (1 <= length rest_thickness)%nat ->
    Forall (Qle 0) (t0 :: rest_thickness) ->
    0 < Qsum (removelast (t0 :: rest_thickness)) ->
    depth < 0 ->
    returns (depth_weighted_average (t0 :: rest_thickness)
               (s0 :: rest_prop) depth)
            s0.
Proof.
  intros t0 s0 rest_thickness rest_prop depth Hlen Hone Hnn Hsum Hneg.
  destruct (split_last rest_thickness Hone) as (front & t & Eth).
  destruct (split_last rest_prop) as (props & s & Esp); [lia|].
  subst rest_thickness rest_prop.
  inversion Hnn as [|? ? Ht0 _]; subst.
  unfold depth_weighted_average, halfspace_branch, run_layers.
  rewrite !app_comm_cons, !removelast_last, last_item_app in *.
  cbn [combine layers_loop]. exact_arith.
  replace (Qltb (t0 + 0) depth) with false
    by (symmetry; apply Qltb_ge; lra).
  cbn [total_depth mean_value].
  rewrite Qeq_bool_false by lra.
  unfold returns. field. lra.
Qed.

Lemma negative_depth_returns_first_property_witness :
  returns (depth_weighted_average (5 :: [3; 0]) (100 :: [150; 200]) (-2)) 100.
Proof.
  apply negative_depth_returns_first_property.
  - reflexivity.
  - simpl. lia.
  - repeat constructor; discriminate.
  - reflexivity.
  - reflexivity.
Defined.
